(** * The chat client's synchronisation core

    A shallow embedding of [frontend/src/hooks/useChat.ts] (the [useChat]
    hook: message log, push-channel handler, session load, lazy session
    creation and the send pipeline), of the endpoint table of
    [frontend/src/api/client.ts], of the record types of
    [frontend/src/types] and of the metrics effect of the [ChatInterface]
    component.

    JavaScript values are modelled as the program uses them: strings are
    sequences of UTF-16 code units, usage numbers are IEEE binary64
    floats (Rocq's primitive floats), message identifiers are integers
    (the backend documents [id] as an integer key and [Date.now()] is an
    integral number of milliseconds), optional fields are [option]s.
    React state is a record that the hook's functions pass along; an
    [async] function is a task that runs up to its next [await] and hands
    back the request together with its continuation. *)

From Stdlib Require Import List ZArith NArith Bool String Ascii Lia.
From Stdlib Require Import Floats.
Import ListNotations.

Set Warnings "-inexact-float,-register-all".

(** ** JavaScript strings *)

(** A string is its sequence of UTF-16 code units. *)
Definition jsstring := list N.

(** A string literal of the source, all of whose characters are ASCII. *)
Definition lit (s : string) : jsstring :=
  map N_of_ascii (list_ascii_of_string s).

Definition jsstring_eqb (a b : jsstring) : bool :=
  if list_eq_dec N.eq_dec a b then true else false.

(** [!s] for a string: only the empty string is falsy. *)
Definition string_falsy (s : jsstring) : bool :=
  match s with
  | [] => true
  | _ :: _ => false
  end.

(** [!s] for [s : string | undefined]. *)
Definition opt_falsy (s : option jsstring) : bool :=
  match s with
  | None => true
  | Some s => string_falsy s
  end.

(** ECMAScript WhiteSpace and LineTerminator code points, the ones
    [String.prototype.trim] strips. *)
Definition is_white_space (c : N) : bool :=
  existsb (N.eqb c)
    [0x9; 0xA; 0xB; 0xC; 0xD; 0x20; 0xA0; 0x1680;
     0x2000; 0x2001; 0x2002; 0x2003; 0x2004; 0x2005; 0x2006; 0x2007;
     0x2008; 0x2009; 0x200A; 0x2028; 0x2029; 0x202F; 0x205F; 0x3000;
     0xFEFF]%N.

Fixpoint trimStart (s : jsstring) : jsstring :=
  match s with
  | [] => []
  | c :: s' => if is_white_space c then trimStart s' else s
  end.

Definition trimEnd (s : jsstring) : jsstring := rev (trimStart (rev s)).

(** [s.trim()] *)
Definition trim (s : jsstring) : jsstring := trimEnd (trimStart s).

(** The spec's "empty or whitespace-only". *)
Definition whitespace_only (s : jsstring) : bool := forallb is_white_space s.

(** ** JavaScript numbers *)

Definition number := float.
Bind Scope float_scope with number.

(** Truthiness of a number: [0], [-0] and [NaN] are falsy. *)
Definition number_truthy (x : number) : bool :=
  negb (PrimFloat.eqb x 0) && PrimFloat.eqb x x.

(** [v || 0] for [v : number | undefined]. *)
Definition or_zero (v : option number) : number :=
  match v with
  | Some x => if number_truthy x then x else 0%float
  | None => 0%float
  end.

(** ** The record types of [types] *)

Inductive Sender : Type := user | assistant.

Definition Sender_eqb (a b : Sender) : bool :=
  match a, b with
  | user, user | assistant, assistant => true
  | _, _ => false
  end.

Record EvaluationScores : Type := {
  faithfulness : number;
  answer_relevancy : number
}.

Record Message : Type := {
  id : Z;
  content : jsstring;
  sender : Sender;
  timestamp : jsstring;
  file_url : option jsstring;
  file_name : option jsstring;
  token_count : option number;
  cost : option number;
  carbon_footprint : option number;
  evaluation_scores : option EvaluationScores;
  is_flagged : option bool
}.

Module ChatSession.
Record t : Type := {
  id : jsstring;
  title : jsstring;
  created_at : jsstring;
  messages : list Message
}.
End ChatSession.

(** ** Metrics aggregation ([ChatInterface], the effect on [messages]) *)

Record Metrics : Type := {
  totalTokens : number;
  totalCost : number;
  totalCarbon : number
}.

(** [arr.reduce(f, init)] *)
Definition reduce {A B : Type} (f : B -> A -> B) (init : B) (arr : list A) : B :=
  fold_left f arr init.

(** The object handed to [onMetricsUpdate]. *)
Definition computeMetrics (messages : list Message) : Metrics :=
  let totalTokens :=
    reduce (fun acc msg => (acc + or_zero (token_count msg))%float) 0%float messages in
  let totalCost :=
    reduce (fun acc msg => (acc + or_zero (cost msg))%float) 0%float messages in
  let totalCarbon :=
    reduce (fun acc msg => (acc + or_zero (carbon_footprint msg))%float) 0%float messages in
  {| totalTokens := totalTokens; totalCost := totalCost; totalCarbon := totalCarbon |}.

(** What one message adds to running totals, whoever sent it. *)
Definition add_usage (acc : Metrics) (msg : Message) : Metrics :=
  {| totalTokens := (totalTokens acc + or_zero (token_count msg))%float;
     totalCost := (totalCost acc + or_zero (cost msg))%float;
     totalCarbon := (totalCarbon acc + or_zero (carbon_footprint msg))%float |}.

Definition zero_metrics : Metrics :=
  {| totalTokens := 0%float; totalCost := 0%float; totalCarbon := 0%float |}.

(** The aggregation as the specification words it: only messages whose
    sender is the assistant are summed. *)
Definition spec_assistant_metrics (messages : list Message) : Metrics :=
  computeMetrics (filter (fun msg => Sender_eqb (sender msg) assistant) messages).

(** One of the three sums of [computeMetrics]. *)
Definition sum_field (field : Message -> option number) (messages : list Message)
  : number :=
  reduce (fun acc msg => (acc + or_zero (field msg))%float) 0%float messages.

Definition carries_usage (msg : Message) : bool :=
  match token_count msg, cost msg, carbon_footprint msg with
  | None, None, None => false
  | _, _, _ => true
  end.

(** Every message of the log is the assistant's or carries no usage field. *)
Definition users_carry_no_usage (messages : list Message) : bool :=
  forallb (fun msg => Sender_eqb (sender msg) assistant || negb (carries_usage msg))
          messages.

(** The same message under another sender. *)
Definition with_sender (s : Sender) (msg : Message) : Message :=
  {| id := id msg; content := content msg; sender := s;
     timestamp := timestamp msg; file_url := file_url msg;
     file_name := file_name msg; token_count := token_count msg;
     cost := cost msg; carbon_footprint := carbon_footprint msg;
     evaluation_scores := evaluation_scores msg; is_flagged := is_flagged msg |}.

(** A message with no optional field. *)
Definition plain_message (i : Z) (c : jsstring) (s : Sender) (ts : jsstring) : Message :=
  {| id := i; content := c; sender := s; timestamp := ts;
     file_url := None; file_name := None; token_count := None; cost := None;
     carbon_footprint := None; evaluation_scores := None; is_flagged := None |}.

Definition with_usage (tokens cst carbon : number) (msg : Message) : Message :=
  {| id := id msg; content := content msg; sender := sender msg;
     timestamp := timestamp msg; file_url := file_url msg;
     file_name := file_name msg; token_count := Some tokens;
     cost := Some cst; carbon_footprint := Some carbon;
     evaluation_scores := evaluation_scores msg; is_flagged := is_flagged msg |}.

(** ** The message log and its three updaters ([useChat])

    Each is a function handed to (or a value installed by) [setMessages]. *)

(** [prev => [...prev, tempMsg]], the optimistic append of [sendMessage]. *)
Definition appendOptimistic (tempMsg : Message) (prev : list Message) : list Message :=
  prev ++ [tempMsg].

(** The updater of [ws.onmessage]: a payload whose [id] is already in the
    log is dropped, any other is added at the tail. *)
Definition ingest (payload : Message) (prev : list Message) : list Message :=
  let exists_ := find (fun m => Z.eqb (id m) (id payload)) prev in
  match exists_ with
  | Some _ => prev
  | None => prev ++ [payload]
  end.

(** [setMessages(res.data.messages)] of [loadSession]. *)
Definition replaceAll (msgs : list Message) (prev : list Message) : list Message :=
  msgs.

(** The two operations of the reconciler a caller can issue. *)
Inductive LogOp : Type :=
| OpAppendOptimistic (msg : Message)
| OpIngest (msg : Message).

Definition apply_op (op : LogOp) (log : list Message) : list Message :=
  match op with
  | OpAppendOptimistic msg => appendOptimistic msg log
  | OpIngest msg => ingest msg log
  end.

(** The log after each operation of a sequence, in order. *)
Fixpoint logs_after (ops : list LogOp) (log : list Message) : list (list Message) :=
  match ops with
  | [] => []
  | op :: ops' => apply_op op log :: logs_after ops' (apply_op op log)
  end.

Definition id_present (i : Z) (log : list Message) : bool :=
  existsb (fun m => Z.eqb (id m) i) log.

(** The caller's obligation: every optimistic append carries an id that
    is not in the log at the moment of the append. *)
Fixpoint appends_fresh (ops : list LogOp) (log : list Message) : bool :=
  match ops with
  | [] => true
  | op :: ops' =>
      match op with
      | OpAppendOptimistic msg => negb (id_present (id msg) log)
      | OpIngest _ => true
      end && appends_fresh ops' (apply_op op log)
  end.

Definition unique_ids (log : list Message) : Prop := NoDup (map id log).

(** ** Requests, effects and the hook's state *)

Definition Error := jsstring.

Inductive Result (T : Type) : Type :=
| Rejected (error : Error)
| Fulfilled (data : T).
Arguments Rejected {T} error.
Arguments Fulfilled {T} data.

(** The request bodies the hook builds. *)
Inductive Body : Type :=
| SessionBody (title : jsstring)
| MessageBody (content : jsstring) (sender : Sender)
| RagBody (content : jsstring) (sender : Sender)
          (file_url : jsstring) (file_name : option jsstring).

Inductive Request : Type :=
| GET (url : jsstring)
| POST (url : jsstring) (body : Body).

Module endpoints.
Definition sessions : jsstring := lit "/sessions".
Definition messages (sessionId : jsstring) : jsstring :=
  lit "/sessions/" ++ sessionId ++ lit "/messages".
Definition messagesWithRag (sessionId : jsstring) : jsstring :=
  lit "/sessions/" ++ sessionId ++ lit "/messages/with-rag".
End endpoints.

(** What the hook does to the outside, in the order it does it. *)
Inductive Effect : Type :=
| Http (req : Request)
| ConsoleError (text : jsstring) (error : Error)
| WsOpen (url : jsstring)
| WsClose (url : jsstring).

(** The hook's three state variables, its socket reference, the clock
    readings [Date.now()] and [new Date().toISOString()] would give, and
    the effects so far (oldest first). *)
Record World : Type := {
  messages : list Message;
  isLoading : bool;
  currentSessionId : option jsstring;
  wsRef : option jsstring;
  Date_now : Z;
  Date_toISOString : jsstring;
  effects : list Effect
}.

Definition setMessages (f : list Message -> list Message) (w : World) : World :=
  {| messages := f (messages w); isLoading := isLoading w;
     currentSessionId := currentSessionId w; wsRef := wsRef w;
     Date_now := Date_now w; Date_toISOString := Date_toISOString w;
     effects := effects w |}.

Definition setIsLoading (b : bool) (w : World) : World :=
  {| messages := messages w; isLoading := b;
     currentSessionId := currentSessionId w; wsRef := wsRef w;
     Date_now := Date_now w; Date_toISOString := Date_toISOString w;
     effects := effects w |}.

Definition setCurrentSessionId (sid : option jsstring) (w : World) : World :=
  {| messages := messages w; isLoading := isLoading w;
     currentSessionId := sid; wsRef := wsRef w;
     Date_now := Date_now w; Date_toISOString := Date_toISOString w;
     effects := effects w |}.

Definition set_wsRef (ws : option jsstring) (w : World) : World :=
  {| messages := messages w; isLoading := isLoading w;
     currentSessionId := currentSessionId w; wsRef := ws;
     Date_now := Date_now w; Date_toISOString := Date_toISOString w;
     effects := effects w |}.

Definition emit (e : Effect) (w : World) : World :=
  {| messages := messages w; isLoading := isLoading w;
     currentSessionId := currentSessionId w; wsRef := wsRef w;
     Date_now := Date_now w; Date_toISOString := Date_toISOString w;
     effects := effects w ++ [e] |}.

(** The environment moving the clock between two events. *)
Definition set_clock (now : Z) (iso : jsstring) (w : World) : World :=
  {| messages := messages w; isLoading := isLoading w;
     currentSessionId := currentSessionId w; wsRef := wsRef w;
     Date_now := now; Date_toISOString := iso;
     effects := effects w |}.

(** ** Asynchronous functions

    An [async] function runs synchronously up to its first [await]; there
    it hands back the request it issued and the rest of its body, which
    is run, against the state of that later moment, once the request has
    settled. *)
Inductive Promise (A : Type) : Type :=
| Settled (a : A)
| AwaitSession (req : Request)
    (k : Result ChatSession.t -> World -> World * Promise A)
| AwaitReply (req : Request)
    (k : Result unit -> World -> World * Promise A).
Arguments Settled {A} a.
Arguments AwaitSession {A} req k.
Arguments AwaitReply {A} req k.

Definition Task (A : Type) : Type := World -> World * Promise A.

Definition ret {A : Type} (a : A) : Task A := fun w => (w, Settled a).

(** [await p] followed by the rest [f] of the calling function. *)
Fixpoint await {A B : Type} (p : Promise A) (f : A -> Task B) : Task B :=
  match p with
  | Settled a => f a
  | AwaitSession req k =>
      fun w => (w, AwaitSession req
                     (fun res w' => let (w'', p') := k res w' in await p' f w''))
  | AwaitReply req k =>
      fun w => (w, AwaitReply req
                     (fun res w' => let (w'', p') := k res w' in await p' f w''))
  end.

Definition bind {A B : Type} (t : Task A) (f : A -> Task B) : Task B :=
  fun w => let (w', p) := t w in await p f w'.

(** [apiClient.get<ChatSession>(url)] and [apiClient.post<ChatSession>(url, body)]. *)
Definition apiClient_session {A : Type} (req : Request)
    (k : Result ChatSession.t -> World -> World * Promise A) : Task A :=
  fun w => (emit (Http req) w, AwaitSession req k).

(** [apiClient.post(url, body)], whose response the caller does not read. *)
Definition apiClient_post {A : Type} (req : Request)
    (k : Result unit -> World -> World * Promise A) : Task A :=
  fun w => (emit (Http req) w, AwaitReply req k).

(** The backend as far as one run needs it: what each request settles to. *)
Record Backend : Type := {
  session_reply : Request -> Result ChatSession.t;
  plain_reply : Request -> Result unit
}.

(** Settle every pending request at once, one after the other. *)
Fixpoint settle_all {A : Type} (b : Backend) (p : Promise A) (w : World) : World * A :=
  match p with
  | Settled a => (w, a)
  | AwaitSession req k =>
      let (w', p') := k (session_reply b req) w in settle_all b p' w'
  | AwaitReply req k =>
      let (w', p') := k (plain_reply b req) w in settle_all b p' w'
  end.

Definition run {A : Type} (b : Backend) (t : Task A) (w : World) : World * A :=
  let (w', p) := t w in settle_all b p w'.

(** ** Push frames

    A frame's text reaches the handler through [JSON.parse]. *)

Inductive json : Type :=
| JNull
| JBool (b : bool)
| JNumber (x : number)
| JString (s : jsstring)
| JArray (items : list json)
| JObject (members : list (jsstring * json)).

(** The text of a frame as [JSON.parse] sees it: [NotJSON text] is a text
    outside the JSON grammar, on which [JSON.parse] throws a
    SyntaxError; [JSONText value] is a text of the grammar, [value]
    being what [JSON.parse] returns for it. *)
Inductive FrameData : Type :=
| NotJSON (text : jsstring)
| JSONText (value : json).

Inductive JSError : Type := SyntaxError | TypeError.

(** How the evaluation of an expression ends. *)
Inductive Completion (A : Type) : Type :=
| Normal (a : A)
| Throw (e : JSError).
Arguments Normal {A} a.
Arguments Throw {A} e.

(** How a handler ends. [Untyped] marks a run that hands [setMessages] a
    payload outside the declared type [Message]: the state of the typed
    model cannot hold what the code stores then, which
    [onmessage_updater] below spells out. *)
Inductive Outcome : Type :=
| Returned
| Threw (e : JSError)
| Untyped.

Definition JSON_parse (data : FrameData) : Completion json :=
  match data with
  | NotJSON _ => Throw SyntaxError
  | JSONText v => Normal v
  end.

(** An object's own member of a name; of a repeated name [JSON.parse]
    keeps the last. *)
Fixpoint member (name : jsstring) (members : list (jsstring * json)) : option json :=
  match members with
  | [] => None
  | (k, v) :: rest =>
      match member name rest with
      | Some v' => Some v'
      | None => if jsstring_eqb k name then Some v else None
      end
  end.

(** [v.name] for a value made by [JSON.parse] and a name that no built-in
    prototype defines ([type], [payload], [id] and the fields of
    [Message]): [None] is [undefined]; reading a property of [null]
    throws. *)
Definition get (v : json) (name : jsstring) : Completion (option json) :=
  match v with
  | JNull => Throw TypeError
  | JObject members => Normal (member name members)
  | _ => Normal None
  end.

(** [v === 'text'] *)
Definition strict_eq_string (v : option json) (text : jsstring) : bool :=
  match v with
  | Some (JString s) => jsstring_eqb s text
  | _ => false
  end.

(** The integer a number is, if it is one. *)
Definition number_to_Z (x : number) : option Z :=
  match Prim2SF x with
  | S754_zero _ => Some 0%Z
  | S754_finite s m e =>
      if (0 <=? e)%Z then Some (cond_Zopp s (Zpos m * 2 ^ e))
      else if (Zpos m mod 2 ^ (- e) =? 0)%Z
           then Some (cond_Zopp s (Zpos m / 2 ^ (- e)))
           else None
  | _ => None
  end.

(** Reading a parsed value at a declared type. An optional field may be
    missing or [null] (both are falsy wherever the program tests it). *)
Definition as_string (v : option json) : option jsstring :=
  match v with
  | Some (JString s) => Some s
  | _ => None
  end.

Definition as_optional {T : Type} (read : option json -> option T) (v : option json)
  : option (option T) :=
  match v with
  | None | Some JNull => Some None
  | _ => match read v with
         | Some x => Some (Some x)
         | None => None
         end
  end.

Definition as_number (v : option json) : option number :=
  match v with
  | Some (JNumber x) => Some x
  | _ => None
  end.

Definition as_bool (v : option json) : option bool :=
  match v with
  | Some (JBool b) => Some b
  | _ => None
  end.

Definition as_Sender (v : option json) : option Sender :=
  match v with
  | Some (JString s) =>
      if jsstring_eqb s (lit "user") then Some user
      else if jsstring_eqb s (lit "assistant") then Some assistant
      else None
  | _ => None
  end.

Definition as_EvaluationScores (v : option json) : option EvaluationScores :=
  match v with
  | Some (JObject o) =>
      match as_number (member (lit "faithfulness") o),
            as_number (member (lit "answer_relevancy") o) with
      | Some f, Some r => Some {| faithfulness := f; answer_relevancy := r |}
      | _, _ => None
      end
  | _ => None
  end.

(** [data.payload] read at the type [Message] the handler stores it at. *)
Definition as_Message (v : option json) : option Message :=
  match v with
  | Some (JObject o) =>
      match as_number (member (lit "id") o),
            as_string (member (lit "content") o),
            as_Sender (member (lit "sender") o),
            as_string (member (lit "timestamp") o),
            as_optional as_string (member (lit "file_url") o),
            as_optional as_string (member (lit "file_name") o),
            as_optional as_number (member (lit "token_count") o),
            as_optional as_number (member (lit "cost") o) with
      | Some i, Some c, Some s, Some ts, Some fu, Some fn, Some tc, Some co =>
          match number_to_Z i,
                as_optional as_number (member (lit "carbon_footprint") o),
                as_optional as_EvaluationScores (member (lit "evaluation_scores") o),
                as_optional as_bool (member (lit "is_flagged") o) with
          | Some i', Some cf, Some es, Some fl =>
              Some {| id := i'; content := c; sender := s; timestamp := ts;
                      file_url := fu; file_name := fn; token_count := tc;
                      cost := co; carbon_footprint := cf;
                      evaluation_scores := es; is_flagged := fl |}
          | _, _, _, _ => None
          end
      | _, _, _, _, _, _, _, _ => None
      end
  | _ => None
  end.

(** ** The hook's functions ([useChat]) *)

Definition console_error (text : string) (error : Error) (w : World) : World :=
  emit (ConsoleError (lit text) error) w.

Definition connectWebSocket (sid : jsstring) (w : World) : World :=
  let w1 := match wsRef w with
            | Some old => emit (WsClose old) w
            | None => w
            end in
  let ws := lit "ws://localhost:8000/ws/" ++ sid in
  set_wsRef (Some ws) (emit (WsOpen ws) w1).

(** [ws.onmessage]: the state it leaves and how it ends. *)
Definition onmessage (event_data : FrameData) (w : World) : World * Outcome :=
  match JSON_parse event_data with
  | Throw e => (w, Threw e)
  | Normal data =>
      match get data (lit "type") with
      | Throw e => (w, Threw e)
      | Normal type =>
          if strict_eq_string type (lit "message") then
            match get data (lit "payload") with
            | Throw e => (w, Threw e)
            | Normal payload =>
                match as_Message payload with
                | Some msg => (setMessages (ingest msg) w, Returned)
                | None => (w, Untyped)
                end
            end
          else (w, Returned)
      end
  end.

(** The frames the handler forwards: JSON objects whose [type] is the
    string [message]. *)
Definition is_message_frame (event_data : FrameData) : bool :=
  match event_data with
  | JSONText (JObject members) =>
      strict_eq_string (member (lit "type") members) (lit "message")
  | _ => false
  end.

(** *** Frames of any shape

    The handler stores [data.payload] unchecked, so a frame can put a
    value into the log that is no [Message]. What the code does with
    every frame and every payload is written out here; on the payloads
    that are [Message]s it is [onmessage] above. *)

(** An entry of the log as the code holds it: a [Message], or any other
    value that a frame carried as its payload ([None] is [undefined]). *)
Inductive Entry : Type :=
| Typed (msg : Message)
| Raw (value : option json).

Definition entry_of (payload : option json) : Entry :=
  match as_Message payload with
  | Some msg => Typed msg
  | None => Raw payload
  end.

(** [v.name] for a value that may be [undefined]. *)
Definition get_opt (v : option json) (name : jsstring) : Completion (option json) :=
  match v with
  | None => Throw TypeError
  | Some j => get j name
  end.

(** [a === b] for the values of two [JSON.parse] calls: an object or an
    array is identical to itself only. *)
Definition strict_eq (a b : option json) : bool :=
  match a, b with
  | None, None => true
  | Some JNull, Some JNull => true
  | Some (JBool x), Some (JBool y) => Bool.eqb x y
  | Some (JNumber x), Some (JNumber y) => PrimFloat.eqb x y
  | Some (JString x), Some (JString y) => jsstring_eqb x y
  | _, _ => false
  end.

(** [i === v] for the id [i] of a [Message]. *)
Definition strict_eq_id (i : Z) (v : option json) : bool :=
  match v with
  | Some (JNumber x) =>
      match number_to_Z x with
      | Some z => Z.eqb i z
      | None => false
      end
  | _ => false
  end.

(** The callback of [prev.find]: [m => m.id === data.payload.id], the
    left operand read first. *)
Definition same_id (payload : option json) (m : Entry) : Completion bool :=
  match m with
  | Typed msg =>
      match get_opt payload (lit "id") with
      | Throw e => Throw e
      | Normal i => Normal (strict_eq_id (id msg) i)
      end
  | Raw value =>
      match get_opt value (lit "id") with
      | Throw e => Throw e
      | Normal mi =>
          match get_opt payload (lit "id") with
          | Throw e => Throw e
          | Normal i => Normal (strict_eq mi i)
          end
      end
  end.

(** [prev.find(m => m.id === data.payload.id)]: the callback is called on
    the entries in order, up to the first it accepts. *)
Fixpoint find_entry (payload : option json) (prev : list Entry)
  : Completion (option Entry) :=
  match prev with
  | [] => Normal None
  | m :: rest =>
      match same_id payload m with
      | Throw e => Throw e
      | Normal true => Normal (Some m)
      | Normal false => find_entry payload rest
      end
  end.

(** Truthiness of an entry, for [if (exists)]. *)
Definition entry_truthy (m : Entry) : bool :=
  match m with
  | Typed _ => true
  | Raw None | Raw (Some JNull) => false
  | Raw (Some (JBool b)) => b
  | Raw (Some (JNumber x)) => number_truthy x
  | Raw (Some (JString s)) => negb (string_falsy s)
  | Raw (Some (JArray _)) | Raw (Some (JObject _)) => true
  end.

(** The updater the handler hands to [setMessages], on a log of any
    entries. React runs it when it renders; an error it throws is not
    the handler's, it fails the render. *)
Definition onmessage_updater (payload : option json) (prev : list Entry)
  : Completion (list Entry) :=
  match find_entry payload prev with
  | Throw e => Throw e
  | Normal exists_ =>
      if match exists_ with
         | Some m => entry_truthy m
         | None => false
         end
      then Normal prev
      else Normal (prev ++ [entry_of payload])
  end.

(** What a call of [ws.onmessage] does: it throws, it returns without a
    state change, or it returns after [setMessages] with the updater for
    [data.payload]. *)
Inductive Handled : Type :=
| Raises (e : JSError)
| Drops
| Updates (payload : option json).

Definition ws_onmessage (event_data : FrameData) : Handled :=
  match JSON_parse event_data with
  | Throw e => Raises e
  | Normal data =>
      match get data (lit "type") with
      | Throw e => Raises e
      | Normal type =>
          if strict_eq_string type (lit "message") then
            match get data (lit "payload") with
            | Throw e => Raises e
            | Normal payload => Updates payload
            end
          else Drops
      end
  end.

(** The integer [payload.id] is, if it is one. *)
Definition payload_id (payload : option json) : option Z :=
  match payload with
  | Some (JObject o) =>
      match member (lit "id") o with
      | Some (JNumber x) => number_to_Z x
      | _ => None
      end
  | _ => None
  end.

(** [payload.id] is the id of a message of the log. *)
Definition known_id (payload : option json) (log : list Message) : bool :=
  match payload_id payload with
  | Some z => id_present z log
  | None => false
  end.

Definition loadSession (sid : jsstring) : Task unit :=
  apiClient_session (GET (lit "/sessions/" ++ sid))
    (fun res w =>
       match res with
       | Fulfilled data =>
           (setCurrentSessionId (Some sid)
              (setMessages (replaceAll (ChatSession.messages data)) w),
            Settled tt)
       | Rejected error =>
           (console_error "Failed to load session" error w, Settled tt)
       end).

(** Resolves to the new session's id, or to [undefined] ([None]). *)
Definition createSession : Task (option jsstring) :=
  apiClient_session (POST (lit "/sessions") (SessionBody (lit "New Chat")))
    (fun res w =>
       match res with
       | Fulfilled data =>
           let w1 := setCurrentSessionId (Some (ChatSession.id data)) w in
           let w2 := connectWebSocket (ChatSession.id data) w1 in
           (w2, Settled (Some (ChatSession.id data)))
       | Rejected error =>
           (console_error "Failed to create session" error w, Settled None)
       end).

(** The optimistic entry [tempMsg] of [sendMessage], from the readings
    [now] of [Date.now()] and [iso] of [new Date().toISOString()]. *)
Definition tempMsg (now : Z) (iso : jsstring) (content : jsstring)
    (fileUrl fileName : option jsstring) : Message :=
  {| id := now;
     content := content;
     sender := user;
     timestamp := iso;
     file_url := fileUrl;
     file_name := fileName;
     token_count := None; cost := None; carbon_footprint := None;
     evaluation_scores := None; is_flagged := None |}.

(** The creation request [sendMessage] issues for a session: the branch
    [if (fileUrl)] and its [else]. *)
Definition creation_request (sid content : jsstring)
    (fileUrl fileName : option jsstring) : Request :=
  match fileUrl with
  | Some url =>
      if string_falsy url then
        POST (endpoints.messages sid) (MessageBody content user)
      else
        POST (endpoints.messagesWithRag sid) (RagBody content user url fileName)
  | None => POST (endpoints.messages sid) (MessageBody content user)
  end.

(** [sendMessage] from [setIsLoading(true)] on, [sid] being known. *)
Definition sendMessage_to (sid content : jsstring)
    (fileUrl fileName : option jsstring) : Task unit :=
  fun w =>
    let w1 := setIsLoading true w in
    let tempMsg := tempMsg (Date_now w1) (Date_toISOString w1)
                           content fileUrl fileName in
    let w2 := setMessages (appendOptimistic tempMsg) w1 in
    apiClient_post (creation_request sid content fileUrl fileName)
      (fun res w' =>
         let w'' := match res with
                    | Fulfilled _ => w'
                    | Rejected error => console_error "Failed to send message" error w'
                    end in
         (setIsLoading false w'', Settled tt))
      w2.

(** [sendMessage] from [sid = await createSession()] on. *)
Definition sendMessage_lazy (content : jsstring)
    (fileUrl fileName : option jsstring) : Task unit :=
  bind createSession
    (fun sid =>
       if opt_falsy sid then ret tt
       else match sid with
            | Some s => sendMessage_to s content fileUrl fileName
            | None => ret tt
            end).

Definition sendMessage (content : jsstring) (fileUrl fileName : option jsstring)
  : Task unit :=
  fun w =>
    if string_falsy (trim content) && opt_falsy fileUrl then ret tt w
    else
      match currentSessionId w with
      | Some sid =>
          if string_falsy sid then sendMessage_lazy content fileUrl fileName w
          else sendMessage_to sid content fileUrl fileName w
      | None => sendMessage_lazy content fileUrl fileName w
      end.

(** The effect on [sessionId]: the load is started, not awaited, and the
    socket is opened in the same turn. *)
Definition useEffect_sessionId (sessionId : option jsstring) : Task unit :=
  fun w =>
    match sessionId with
    | Some sid =>
        if string_falsy sid then ret tt w
        else let (w1, p) := loadSession sid w in (connectWebSocket sid w1, p)
    | None => ret tt w
    end.

(** What the hook returns to its caller. *)
Record HookView : Type := {
  view_messages : list Message;
  view_isLoading : bool;
  view_currentSessionId : option jsstring
}.

Definition view (w : World) : HookView :=
  {| view_messages := messages w;
     view_isLoading := isLoading w;
     view_currentSessionId := currentSessionId w |}.

(** The requests among the effects, and those that create a message. *)
Fixpoint requests (es : list Effect) : list Request :=
  match es with
  | [] => []
  | Http req :: es' => req :: requests es'
  | _ :: es' => requests es'
  end.

Definition is_creation_body (b : Body) : bool :=
  match b with
  | SessionBody _ => false
  | MessageBody _ _ | RagBody _ _ _ _ => true
  end.

Definition is_creation_request (req : Request) : bool :=
  match req with
  | GET _ => false
  | POST _ body => is_creation_body body
  end.

Definition creation_requests (es : list Effect) : list Request :=
  filter is_creation_request (requests es).

(** The session-creation request of [createSession], and the session id
    a send ends up with under a backend: the bound one, or the one the
    backend creates; none when creation fails or yields an empty id. *)
Definition create_request : Request :=
  POST (lit "/sessions") (SessionBody (lit "New Chat")).

Definition session_for (b : Backend) (w : World) : option jsstring :=
  if opt_falsy (currentSessionId w) then
    match session_reply b create_request with
    | Fulfilled data =>
        if string_falsy (ChatSession.id data) then None
        else Some (ChatSession.id data)
    | Rejected _ => None
    end
  else currentSessionId w.

(** The state in which a send that passed its first test reaches the
    end of its session step: as it was when a session is bound, after
    [createSession] otherwise. *)
Definition session_step (b : Backend) (w : World) : World :=
  if opt_falsy (currentSessionId w) then
    match session_reply b create_request with
    | Fulfilled data =>
        connectWebSocket (ChatSession.id data)
          (setCurrentSessionId (Some (ChatSession.id data))
             (emit (Http create_request) w))
    | Rejected error =>
        console_error "Failed to create session" error (emit (Http create_request) w)
    end
  else w.

(** The send passes its first test: some content, or an attachment. *)
Definition sendable (content : jsstring) (fileUrl : option jsstring) : bool :=
  negb (string_falsy (trim content) && opt_falsy fileUrl).

(** What the caller of [sendMessage] has in hand once a send is over: the
    value its promise resolved to and what the hook returns. *)
Definition send_observation (b : Backend) (content : jsstring)
    (fileUrl fileName : option jsstring) (w : World) : unit * HookView :=
  let (w', r) := run b (sendMessage content fileUrl fileName) w in (r, view w').

(** The backend [b], except that it accepts every message creation. *)
Definition accepting (b : Backend) : Backend :=
  {| session_reply := session_reply b;
     plain_reply := fun _ => Fulfilled tt |}.

(** ** Sample data *)

Definition iso0 : jsstring := lit "2025-11-30T12:00:00.000Z".

(** The log of the specification's metrics example. *)
Definition example_log : list Message :=
  [ plain_message 1 (lit "question") user iso0;
    with_usage 10 0.001 1e-6 (plain_message 2 (lit "first answer") assistant iso0);
    with_usage 20 0.002 2e-6 (plain_message 3 (lit "second answer") assistant iso0) ].

(** A log whose only message is the user's and carries usage fields. *)
Definition user_usage_log : list Message :=
  [ with_usage 5 0.5 0.25 (plain_message 1 (lit "hi") user iso0) ].

Definition abc_log : list Message :=
  [ plain_message 1 (lit "A") user iso0;
    plain_message 2 (lit "B") assistant iso0;
    plain_message 3 (lit "C") user iso0 ].

(** Operations on [abc_log]: an append, its echo, a reply, an append. *)
Definition sample_ops : list LogOp :=
  [ OpAppendOptimistic (plain_message 10 (lit "draft") user iso0);
    OpIngest (plain_message 10 (lit "echo") user iso0);
    OpIngest (plain_message 4 (lit "reply") assistant iso0);
    OpAppendOptimistic (plain_message 11 (lit "next") user iso0) ].

Definition world0 : World :=
  {| messages := []; isLoading := false; currentSessionId := None;
     wsRef := None; Date_now := 1764504000000; Date_toISOString := iso0;
     effects := [] |}.

(** A view bound to session [s1] that shows [abc_log]. *)
Definition world_abc : World :=
  {| messages := abc_log; isLoading := false;
     currentSessionId := Some (lit "s1");
     wsRef := Some (lit "ws://localhost:8000/ws/s1");
     Date_now := 1764504000000; Date_toISOString := iso0;
     effects := [] |}.

Definition new_session : ChatSession.t :=
  {| ChatSession.id := lit "s2"; ChatSession.title := lit "New Chat";
     ChatSession.created_at := iso0; ChatSession.messages := [] |}.

(** A backend that answers every request, and one that rejects all. *)
Definition backend_up : Backend :=
  {| session_reply := fun _ => Fulfilled new_session;
     plain_reply := fun _ => Fulfilled tt |}.

Definition backend_down : Backend :=
  {| session_reply := fun _ => Rejected (lit "Network Error");
     plain_reply := fun _ => Rejected (lit "Network Error") |}.

(** A backend that creates sessions and rejects message creation. *)
Definition backend_no_messages : Backend :=
  {| session_reply := fun _ => Fulfilled new_session;
     plain_reply := fun _ => Rejected (lit "Network Error") |}.

(** ** The rest of the hook: mounting, cleanup and the event loop *)

(** The state of a freshly mounted hook: [useState([])], [useState(false)],
    [useState(sessionId)] and [useRef(null)], under a clock. *)
Definition mounted (sessionId : option jsstring) (now : Z) (iso : jsstring) : World :=
  {| messages := []; isLoading := false; currentSessionId := sessionId;
     wsRef := None; Date_now := now; Date_toISOString := iso; effects := [] |}.

(** The cleanup the effect on [sessionId] returns:
    [if (wsRef.current) wsRef.current.close()]. *)
Definition useEffect_cleanup (w : World) : World :=
  match wsRef w with
  | Some ws => emit (WsClose ws) w
  | None => w
  end.

(** The frames of a list handed to [ws.onmessage] one after the other; a
    handler that throws leaves the socket open for the next frame. The
    result is [None] from the first [message] frame on whose payload is
    no [Message]: the typed state cannot follow the code there. *)
Fixpoint deliver (frames : list FrameData) (w : World) : option World :=
  match frames with
  | [] => Some w
  | data :: rest =>
      match onmessage data w with
      | (_, Untyped) => None
      | (w', _) => deliver rest w'
      end
  end.

(** The message a frame makes the handler ingest, if any: the payload of
    a [message] frame, read at the type [Message]. *)
Definition frame_payload (data : FrameData) : option Message :=
  match data with
  | JSONText (JObject members) =>
      if strict_eq_string (member (lit "type") members) (lit "message")
      then as_Message (member (lit "payload") members)
      else None
  | _ => None
  end.

(** The frame has nothing left to add to the log: it carries no message,
    or one whose id the log holds. *)
Definition absorbed (data : FrameData) (w : World) : Prop :=
  match frame_payload data with
  | Some msg => id_present (id msg) (messages w) = true
  | None => True
  end.

(** The log after the operations of a sequence. *)
Definition apply_ops (ops : list LogOp) (log : list Message) : list Message :=
  fold_left (fun log op => apply_op op log) ops log.

(** The result of a promise thrown away, its steps kept. *)
Fixpoint void {A : Type} (p : Promise A) : Promise unit :=
  match p with
  | Settled _ => Settled tt
  | AwaitSession req k =>
      AwaitSession req (fun res w => let (w', p') := k res w in (w', void p'))
  | AwaitReply req k =>
      AwaitReply req (fun res w => let (w', p') := k res w in (w', void p'))
  end.

(** What can happen to a mounted hook: a call of one of the two functions
    it returns, a run of its effect or of the effect's cleanup, a frame
    on its socket, the settling of a pending request (the [n]-th promise
    in flight) and the passing of time. *)
Inductive Event : Type :=
| CallSendMessage (content : jsstring) (fileUrl fileName : option jsstring)
| CallCreateSession
| RunEffect (sessionId : option jsstring)
| RunCleanup
| Frame (data : FrameData)
| SettleSession (n : nat) (res : Result ChatSession.t)
| SettleReply (n : nat) (res : Result unit)
| Clock (now : Z) (iso : jsstring).

(** The hook's state and the promises in flight, oldest first. *)
Record Loop : Type := {
  world : World;
  pending : list (Promise unit)
}.

Fixpoint set_nth {A : Type} (n : nat) (x : A) (l : list A) : list A :=
  match l, n with
  | [], _ => []
  | _ :: l', O => x :: l'
  | y :: l', S n' => y :: set_nth n' x l'
  end.

Definition start (t : Task unit) (l : Loop) : Loop :=
  let (w, p) := t (world l) in
  {| world := w; pending := pending l ++ [p] |}.

Definition resume (n : nat) (step : World * Promise unit) (l : Loop) : Loop :=
  {| world := fst step; pending := set_nth n (snd step) (pending l) |}.

(** One event. A frame changes the log at most ([onmessage]); one whose
    payload is no [Message] leaves the typed state as it is, the socket,
    the requests and the busy flag being out of any frame's reach. *)
Definition step (l : Loop) (e : Event) : Loop :=
  match e with
  | CallSendMessage content fileUrl fileName =>
      start (sendMessage content fileUrl fileName) l
  | CallCreateSession =>
      start (fun w => let (w', p) := createSession w in (w', void p)) l
  | RunEffect sessionId => start (useEffect_sessionId sessionId) l
  | RunCleanup => {| world := useEffect_cleanup (world l); pending := pending l |}
  | Frame data =>
      {| world := fst (onmessage data (world l)); pending := pending l |}
  | SettleSession n res =>
      match nth_error (pending l) n with
      | Some (AwaitSession _ k) => resume n (k res (world l)) l
      | _ => l
      end
  | SettleReply n res =>
      match nth_error (pending l) n with
      | Some (AwaitReply _ k) => resume n (k res (world l)) l
      | _ => l
      end
  | Clock now iso =>
      {| world := set_clock now iso (world l); pending := pending l |}
  end.

Definition steps (events : list Event) (l : Loop) : Loop :=
  fold_left step events l.

Definition mount (sessionId : option jsstring) (now : Z) (iso : jsstring) : Loop :=
  {| world := mounted sessionId now iso; pending := [] |}.

(** Every step a promise can still take keeps [I]. *)
Fixpoint preserves {A : Type} (I : World -> Prop) (p : Promise A) : Prop :=
  match p with
  | Settled _ => True
  | AwaitSession _ k =>
      forall res w, I w ->
        match k res w with (w', p') => I w' /\ preserves I p' end
  | AwaitReply _ k =>
      forall res w, I w ->
        match k res w with (w', p') => I w' /\ preserves I p' end
  end.

Definition task_preserves {A : Type} (I : World -> Prop) (t : Task A) : Prop :=
  forall w, I w -> match t w with (w', p) => I w' /\ preserves I p end.

(** The requests the hook's code can build. *)
Inductive hook_request : Request -> Prop :=
| hook_load (sid : jsstring) :
    string_falsy sid = false -> hook_request (GET (lit "/sessions/" ++ sid))
| hook_create : hook_request create_request
| hook_message (sid content : jsstring) (fileUrl fileName : option jsstring) :
    string_falsy sid = false ->
    hook_request (creation_request sid content fileUrl fileName).

(** [I] is kept by each state change the hook's code is made of. *)
Record stable (I : World -> Prop) : Prop := {
  stable_setMessages : forall f w, I w -> I (setMessages f w);
  stable_setIsLoading : forall b w, I w -> I (setIsLoading b w);
  stable_setCurrentSessionId : forall sid w, I w -> I (setCurrentSessionId sid w);
  stable_request : forall req w, hook_request req -> I w -> I (emit (Http req) w);
  stable_console : forall text error w, I w -> I (emit (ConsoleError text error) w);
  stable_connect : forall sid w, I w -> I (connectWebSocket sid w);
  stable_cleanup : forall w, I w -> I (useEffect_cleanup w);
  stable_clock : forall now iso w, I w -> I (set_clock now iso w)
}.

(** The state satisfies [I] and so will every state that the promises
    in flight lead to. *)
Definition loop_ok (I : World -> Prop) (l : Loop) : Prop :=
  I (world l) /\ Forall (preserves I) (pending l).

(** A message creation request is in flight. *)
Definition awaiting_reply (p : Promise unit) : bool :=
  match p with
  | AwaitReply _ _ => true
  | _ => false
  end.

(** What a promise in flight can still do to the busy flag: the settling
    of a message creation clears it and ends the promise; the settling
    of a session request leaves it alone and ends the promise, or sets
    it and leaves a message creation in flight. *)
Definition reply_clears (k : Result unit -> World -> World * Promise unit) : Prop :=
  forall res w, isLoading (fst (k res w)) = false /\ snd (k res w) = Settled tt.

Definition flag_shape (p : Promise unit) : Prop :=
  match p with
  | Settled _ => True
  | AwaitReply _ k => reply_clears k
  | AwaitSession _ k =>
      forall res w,
        (isLoading (fst (k res w)) = isLoading w /\ snd (k res w) = Settled tt)
        \/ (isLoading (fst (k res w)) = true
            /\ exists req k', snd (k res w) = AwaitReply req k' /\ reply_clears k')
  end.

Definition flag_ok (l : Loop) : Prop :=
  Forall flag_shape (pending l)
  /\ (isLoading (world l) = true -> existsb awaiting_reply (pending l) = true).

(** ** Sockets

    The trace names a socket by its url. [new WebSocket(url)] opens a
    socket; [close()] closes the socket it is called on, which has the
    url the trace records, and does nothing to a closed socket. *)

(** The open sockets, newest first, without the newest of [url]. *)
Fixpoint close_socket (url : jsstring) (opened : list jsstring) : list jsstring :=
  match opened with
  | [] => []
  | u :: rest =>
      if jsstring_eqb u url then rest else u :: close_socket url rest
  end.

Definition socket_step (opened : list jsstring) (e : Effect) : list jsstring :=
  match e with
  | WsOpen url => url :: opened
  | WsClose url => close_socket url opened
  | _ => opened
  end.

(** The urls of the sockets that are open after a trace, newest first. *)
Definition open_sockets (es : list Effect) : list jsstring :=
  fold_left socket_step es [].

(** No socket is open, or one is and the reference holds it. *)
Definition sockets_ok (w : World) : Prop :=
  open_sockets (effects w) = []
  \/ exists u, wsRef w = Some u /\ open_sockets (effects w) = [u].

(** Every request issued so far is one the hook's code can build. *)
Definition requests_ok (w : World) : Prop :=
  Forall hook_request (requests (effects w)).

Definition ws_url (sid : jsstring) : jsstring := lit "ws://localhost:8000/ws/" ++ sid.

(** ** The callers: [App], [ChatInterface] and [MetricsDisplay] *)

Module App.
Record state : Type := {
  sessionId : option jsstring;
  metrics : Metrics
}.

Definition setSessionId (sid : option jsstring) (a : state) : state :=
  {| sessionId := sid; metrics := metrics a |}.

Definition setMetrics (m : Metrics) (a : state) : state :=
  {| sessionId := sessionId a; metrics := m |}.

(** [onNewChat] *)
Definition onNewChat (a : state) : state :=
  setMetrics {| totalTokens := 0; totalCost := 0; totalCarbon := 0 |}
             (setSessionId None a).
End App.

Definition opt_jsstring_eqb (a b : option jsstring) : bool :=
  match a, b with
  | Some x, Some y => jsstring_eqb x y
  | None, None => true
  | _, _ => false
  end.

Module ChatInterface.
(** [input] and [fileUrl], both [useState('')]. *)
Record state : Type := {
  input : jsstring;
  fileUrl : jsstring
}.

(** The effect on [messages]: [onMetricsUpdate] is [App]'s [setMetrics]. *)
Definition metrics_effect (messages : list Message) (a : App.state) : App.state :=
  App.setMetrics (computeMetrics messages) a.

(** The effect on [currentSessionId] and [sessionId]: [onSessionCreate] is
    [App]'s [setSessionId]. *)
Definition session_effect (currentSessionId sessionId : option jsstring)
    (a : App.state) : App.state :=
  if negb (opt_falsy currentSessionId)
     && negb (opt_jsstring_eqb currentSessionId sessionId)
  then App.setSessionId currentSessionId a
  else a.

(** [fileUrl || undefined] *)
Definition or_undefined (s : jsstring) : option jsstring :=
  if string_falsy s then None else Some s.

(** [handleSubmit], the requests of its send settled by the backend [b]. *)
Definition handleSubmit (b : Backend) (s : state) (w : World) : state * World :=
  if string_falsy (trim (input s)) && string_falsy (fileUrl s) then (s, w)
  else
    let (w', _) := run b (sendMessage (input s) (or_undefined (fileUrl s)) None) w in
    ({| input := []; fileUrl := [] |}, w').

(** The [disabled] attribute of the submit button. *)
Definition submit_disabled (isLoading : bool) (s : state) : bool :=
  isLoading || (string_falsy (trim (input s)) && string_falsy (fileUrl s)).
End ChatInterface.

Module MetricsDisplay.
Inductive Tone : Type := green | yellow.

(** What the component puts on the page, in order. [NumberText x] is a
    number that stands as a child by itself, which React prints. *)
Inductive Node : Type :=
| Tokens (n : number)
| Cost (c : number)
| Carbon (c : number)
| Divider
| Faith (tone : Tone) (x : number)
| Rel (tone : Tone) (x : number)
| Flagged
| NumberText (x : number).

(** [{v && element}] for [v : number | undefined]. *)
Definition number_and (v : option number) (element : number -> Node) : list Node :=
  match v with
  | None => []
  | Some x => if number_truthy x then [element x] else [NumberText x]
  end.

Definition tone_of (x : number) : Tone :=
  if PrimFloat.ltb 0.7 x then green else yellow.

(** [None] is [null]: nothing is rendered. *)
Definition render (message : Message) : option (list Node) :=
  if negb (match token_count message with
           | Some x => number_truthy x
           | None => false
           end)
     && match evaluation_scores message with Some _ => false | None => true end
  then None
  else
    Some (number_and (token_count message) Tokens
          ++ number_and (cost message) Cost
          ++ number_and (carbon_footprint message) Carbon
          ++ match evaluation_scores message with
             | Some scores =>
                 [ Divider;
                   Faith (tone_of (faithfulness scores)) (faithfulness scores);
                   Rel (tone_of (answer_relevancy scores)) (answer_relevancy scores) ]
             | None => []
             end
          ++ match is_flagged message with
             | Some true => [Flagged]
             | _ => []
             end).
End MetricsDisplay.

(** More sample data. *)
Definition other_session : ChatSession.t :=
  {| ChatSession.id := lit "s9"; ChatSession.title := lit "Older chat";
     ChatSession.created_at := iso0;
     ChatSession.messages := [ plain_message 7 (lit "old") user iso0 ] |}.

Definition backend_empty_id : Backend :=
  {| session_reply := fun _ =>
       Fulfilled {| ChatSession.id := []; ChatSession.title := lit "New Chat";
                    ChatSession.created_at := iso0; ChatSession.messages := [] |};
     plain_reply := fun _ => Fulfilled tt |}.

(** Session [s1] as the server holds it, and a backend that serves it. *)
Definition stored_session : ChatSession.t :=
  {| ChatSession.id := lit "s1"; ChatSession.title := lit "Chat";
     ChatSession.created_at := iso0; ChatSession.messages := example_log |}.

Definition backend_stored : Backend :=
  {| session_reply := fun _ => Fulfilled stored_session;
     plain_reply := fun _ => Fulfilled tt |}.

Definition echo_members (i : number) (text : string) : list (jsstring * json) :=
  [ (lit "type", JString (lit "message"));
    (lit "payload",
     JObject [ (lit "id", JNumber i);
               (lit "content", JString (lit text));
               (lit "sender", JString (lit "user"));
               (lit "timestamp", JString iso0) ]) ].

(** Frames for the examples: a message with a new id, then text that is
    not JSON; and the state they leave. *)
Definition sample_frames : list FrameData :=
  [ JSONText (JObject (echo_members 4 "reply")); NotJSON (lit "ping") ].

Definition delivered_sample : World :=
  match deliver sample_frames world_abc with
  | Some w => w
  | None => world_abc
  end.

(** * Properties *)

(** ** Binary64 addition never makes a negative zero out of other values

    The running totals start at [0] and only ever have [v || 0] added
    to them, so they are never [-0], the one value that adding [0]
    changes. *)

Section NegZero.
Local Open Scope Z_scope.

Lemma digits2_pos_lower (m : positive) :
  2 ^ (Zpos (digits2_pos m) - 1) <= Zpos m.
Proof.
  induction m as [m IH|m IH|]; simpl digits2_pos.
  - rewrite Pos2Z.inj_succ.
    replace (Z.succ (Zpos (digits2_pos m)) - 1) with (Z.succ (Zpos (digits2_pos m) - 1)) by lia.
    rewrite Z.pow_succ_r by lia. lia.
  - rewrite Pos2Z.inj_succ.
    replace (Z.succ (Zpos (digits2_pos m)) - 1) with (Z.succ (Zpos (digits2_pos m) - 1)) by lia.
    rewrite Z.pow_succ_r by lia. lia.
  - simpl. lia.
Qed.

Lemma shr_1_m (r : shr_record) :
  0 <= shr_m r -> shr_m (shr_1 r) = shr_m r / 2.
Proof.
  destruct r as [m r s]. simpl. intros Hm.
  destruct m as [|p|p]; [reflexivity| |lia].
  destruct p as [p|p|]; simpl shr_m.
  - rewrite Pos2Z.inj_xI. apply Z.div_unique with (r := 1); lia.
  - rewrite Pos2Z.inj_xO. apply Z.div_unique with (r := 0); lia.
  - reflexivity.
Qed.

Lemma iter_shr_1_m (p : positive) :
  forall r, 0 <= shr_m r ->
  shr_m (iter_pos shr_1 p r) = shr_m r / 2 ^ Zpos p.
Proof.
  induction p as [p IH|p IH|]; intros r Hr; simpl iter_pos.
  - assert (H1 : 0 <= shr_m (shr_1 r)) by (rewrite shr_1_m by lia; apply Z.div_pos; lia).
    assert (H2 : 0 <= shr_m (iter_pos shr_1 p (shr_1 r)))
      by (rewrite IH by lia; apply Z.div_pos; lia).
    rewrite IH, IH, shr_1_m by lia.
    rewrite !Z.div_div by lia.
    f_equal. replace (Zpos p~1) with (1 + Zpos p + Zpos p) by lia.
    rewrite !Z.pow_add_r by lia. lia.
  - assert (H2 : 0 <= shr_m (iter_pos shr_1 p r))
      by (rewrite IH by lia; apply Z.div_pos; lia).
    rewrite IH, IH by lia.
    rewrite !Z.div_div by lia.
    f_equal. replace (Zpos p~0) with (Zpos p + Zpos p) by lia.
    rewrite !Z.pow_add_r by lia. lia.
  - rewrite shr_1_m by lia. reflexivity.
Qed.

Lemma shr_record_of_loc_m (m : Z) (l : location) :
  shr_m (shr_record_of_loc m l) = m.
Proof. destruct l as [|[]]; reflexivity. Qed.

(** Shifting a positive mantissa to its format exponent leaves it
    positive, when the exponent it starts from is not below [emin]. *)
Lemma shr_fexp_positive (m : positive) (e : Z) (l : location) :
  emin <= e ->
  0 < shr_m (fst (shr_fexp prec emax (Zpos m) e l))
  /\ emin <= snd (shr_fexp prec emax (Zpos m) e l).
Proof.
  intros He. unfold shr_fexp, shr. simpl Zdigits2.
  set (d := Zpos (digits2_pos m)).
  pose proof (digits2_pos_lower m) as Hd. fold d in Hd.
  destruct (fexp prec emax (d + e) - e) as [|n|n] eqn:En; simpl fst; simpl snd.
  - rewrite shr_record_of_loc_m. lia.
  - rewrite iter_shr_1_m by (rewrite shr_record_of_loc_m; lia).
    rewrite shr_record_of_loc_m.
    unfold fexp, SpecFloat.emin, prec, emax in *.
    assert (Hn : Zpos n <= d - 1) by lia.
    split; [|lia].
    apply Z.div_str_pos. split; [lia|].
    apply Z.le_trans with (2 ^ (d - 1)); [|exact Hd].
    apply Z.pow_le_mono_r; lia.
  - rewrite shr_record_of_loc_m. lia.
Qed.

Lemma round_nearest_even_positive (m : Z) (l : location) :
  0 < m -> 0 < round_nearest_even m l.
Proof.
  intros Hm. unfold round_nearest_even.
  destruct l as [|[]]; try lia. destruct (Z.even m); lia.
Qed.

Lemma binary_round_aux_not_zero (sx s : bool) (m : positive) (e : Z) (l : location) :
  emin <= e ->
  binary_round_aux prec emax sx (Zpos m) e l <> S754_zero s.
Proof.
  intros He. unfold binary_round_aux.
  destruct (shr_fexp_positive m e l He) as [H1 H2].
  destruct (shr_fexp prec emax (Zpos m) e l) as [mrs' e'] eqn:E1.
  simpl fst in H1; simpl snd in H2.
  pose proof (round_nearest_even_positive (shr_m mrs') (loc_of_shr_record mrs') H1) as Hr.
  destruct (round_nearest_even (shr_m mrs') (loc_of_shr_record mrs')) as [|m'|m'] eqn:Em;
    try lia.
  destruct (shr_fexp_positive m' e' loc_Exact H2) as [H3 H4].
  destruct (shr_fexp prec emax (Zpos m') e' loc_Exact) as [mrs'' e''] eqn:E2.
  simpl fst in H3.
  destruct (shr_m mrs'') as [|m''|m'']; try lia.
  destruct (e'' <=? emax - prec); discriminate.
Qed.

Lemma binary_round_not_zero (sx s : bool) (m : positive) (e : Z) :
  emin <= e ->
  binary_round prec emax sx m e <> S754_zero s.
Proof.
  intros He. unfold binary_round.
  destruct (shl_align m e (fexp prec emax (Zpos (digits2_pos m) + e))) as [mz ez] eqn:E.
  apply binary_round_aux_not_zero.
  unfold shl_align in E.
  destruct (fexp prec emax (Zpos (digits2_pos m) + e) - e) eqn:En;
    inversion E; subst; try lia.
  unfold fexp. lia.
Qed.

Lemma valid_finite_emin (s : bool) (m : positive) (e : Z) :
  valid_binary (S754_finite s m e) = true -> emin <= e.
Proof.
  simpl. unfold bounded, canonical_mantissa.
  intros H. apply andb_true_iff in H. destruct H as [H _].
  apply Z.eqb_eq in H. unfold fexp in H. lia.
Qed.

Lemma SFadd_not_neg_zero (x y : spec_float) :
  valid_binary x = true ->
  valid_binary y = true ->
  x <> S754_zero true ->
  y <> S754_zero true ->
  SF64add x y <> S754_zero true.
Proof.
  intros Vx Vy Hx Hy. unfold SF64add, SFadd.
  destruct x as [sx|sx| |sx mx ex]; destruct y as [sy|sy| |sy my ey];
    try discriminate; try assumption;
    try (destruct sx, sy; discriminate).
  - destruct sx, sy; try discriminate; congruence.
  - apply valid_finite_emin in Vx, Vy.
    unfold binary_normalize.
    match goal with |- context [match ?z with Z0 => _ | Zpos _ => _ | Zneg _ => _ end] =>
      destruct z end.
    + discriminate.
    + apply binary_round_not_zero. lia.
    + apply binary_round_not_zero. lia.
Qed.

End NegZero.

Lemma add_zero_r (x : float) :
  Prim2SF x <> S754_zero true -> (x + 0)%float = x.
Proof.
  intros H. apply Prim2SF_inj. rewrite add_spec.
  change (Prim2SF 0) with (S754_zero false).
  destruct (Prim2SF x) as [[|]| | |]; try reflexivity. congruence.
Qed.

Lemma add_not_neg_zero (x y : float) :
  Prim2SF x <> S754_zero true ->
  Prim2SF y <> S754_zero true ->
  Prim2SF (x + y)%float <> S754_zero true.
Proof.
  intros Hx Hy. rewrite add_spec.
  apply SFadd_not_neg_zero; auto using Prim2SF_valid.
Qed.

(** ** Metrics *)

Lemma reduce_snoc {A B : Type} (f : B -> A -> B) (init : B) (arr : list A) (x : A) :
  reduce f init (arr ++ [x]) = f (reduce f init arr) x.
Proof. unfold reduce. rewrite fold_left_app. reflexivity. Qed.

Lemma reduce_ext_map {A B : Type} (f : B -> A -> B) (g : A -> A) (arr : list A) :
  (forall acc x, f acc (g x) = f acc x) ->
  forall init, reduce f init (map g arr) = reduce f init arr.
Proof.
  intros Hfg. unfold reduce.
  induction arr as [|x arr IH]; intros init; simpl.
  - reflexivity.
  - rewrite Hfg. apply IH.
Qed.

Lemma computeMetrics_snoc (log : list Message) (msg : Message) :
  computeMetrics (log ++ [msg]) = add_usage (computeMetrics log) msg.
Proof.
  unfold computeMetrics, add_usage; simpl.
  rewrite !reduce_snoc. reflexivity.
Qed.

Lemma computeMetrics_with_sender (s : Sender) (log : list Message) :
  computeMetrics (map (with_sender s) log) = computeMetrics log.
Proof.
  unfold computeMetrics.
  rewrite !reduce_ext_map by reflexivity. reflexivity.
Qed.

(** The specification's metrics example, in binary64 arithmetic. *)
Example computeMetrics_example :
  computeMetrics example_log
  = {| totalTokens := 30; totalCost := 0.003; totalCarbon := 3e-6 |}.
Proof. vm_compute. reflexivity. Qed.

(** C1, as stated, fails: a log whose single message is the user's and
    carries usage fields has totals 5, 0.5 and 0.25, while the sum over
    the assistant's messages alone is zero. *)
Lemma metrics_count_user_usage :
  map sender user_usage_log = [user]
  /\ computeMetrics user_usage_log
     = {| totalTokens := 5; totalCost := 0.5; totalCarbon := 0.25 |}
  /\ spec_assistant_metrics user_usage_log = zero_metrics
  /\ computeMetrics user_usage_log <> spec_assistant_metrics user_usage_log.
Proof.
  split; [reflexivity|]. split; [vm_compute; reflexivity|].
  split; [vm_compute; reflexivity|].
  intros H.
  assert (E : PrimFloat.eqb (totalTokens (computeMetrics user_usage_log))
                            (totalTokens (spec_assistant_metrics user_usage_log)) = true).
  { rewrite H. vm_compute. reflexivity. }
  vm_compute in E. discriminate E.
Qed.

Lemma or_zero_not_neg_zero (v : option number) :
  Prim2SF (or_zero v) <> S754_zero true.
Proof.
  unfold or_zero. destruct v as [x|]; [|vm_compute; discriminate].
  destruct (number_truthy x) eqn:T; [|vm_compute; discriminate].
  unfold number_truthy in T. apply andb_true_iff in T. destruct T as [T _].
  apply negb_true_iff in T. rewrite eqb_spec in T.
  intros H. rewrite H in T. vm_compute in T. discriminate T.
Qed.

Lemma fold_total_not_neg_zero (field : Message -> option number) (log : list Message) :
  forall acc : number,
    Prim2SF acc <> S754_zero true ->
    Prim2SF (fold_left (fun acc msg => (acc + or_zero (field msg))%float) log acc)
    <> S754_zero true.
Proof.
  induction log as [|m log IH]; intros acc Hacc; simpl.
  - exact Hacc.
  - apply IH. apply add_not_neg_zero; [exact Hacc|apply or_zero_not_neg_zero].
Qed.

(** Messages that add [0] can be left out of a sum. *)
Lemma fold_total_filter (field : Message -> option number) (keep : Message -> bool)
    (log : list Message) :
  (forall m, In m log -> keep m = false -> or_zero (field m) = 0%float) ->
  forall acc : number,
    Prim2SF acc <> S754_zero true ->
    fold_left (fun acc msg => (acc + or_zero (field msg))%float) (filter keep log) acc
    = fold_left (fun acc msg => (acc + or_zero (field msg))%float) log acc.
Proof.
  induction log as [|m log IH]; intros Hzero acc Hacc; simpl.
  - reflexivity.
  - assert (Hrest : forall m', In m' log -> keep m' = false ->
                               or_zero (field m') = 0%float)
      by (intros m' Hin; apply Hzero; right; exact Hin).
    destruct (keep m) eqn:K; simpl.
    + apply IH; [exact Hrest|].
      apply add_not_neg_zero; [exact Hacc|apply or_zero_not_neg_zero].
    + rewrite (Hzero m (or_introl eq_refl) K), add_zero_r by exact Hacc.
      apply IH; assumption.
Qed.

Lemma sum_field_assistant_only (field : Message -> option number) (log : list Message) :
  (forall m, In m log -> Sender_eqb (sender m) assistant = false -> field m = None) ->
  sum_field field (filter (fun msg => Sender_eqb (sender msg) assistant) log)
  = sum_field field log.
Proof.
  intros H. unfold sum_field, reduce. apply fold_total_filter.
  - intros m Hin K. rewrite (H m Hin K). reflexivity.
  - vm_compute. discriminate.
Qed.

Lemma computeMetrics_assistant_only (log : list Message) :
  users_carry_no_usage log = true ->
  computeMetrics log = spec_assistant_metrics log.
Proof.
  unfold users_carry_no_usage. rewrite forallb_forall. intros H.
  assert (Hnone : forall m, In m log -> Sender_eqb (sender m) assistant = false ->
                  token_count m = None /\ cost m = None /\ carbon_footprint m = None).
  { intros m Hin K. specialize (H m Hin). rewrite K in H. simpl in H.
    apply negb_true_iff in H. unfold carries_usage in H.
    destruct (token_count m), (cost m), (carbon_footprint m);
      try discriminate H. repeat split. }
  unfold spec_assistant_metrics, computeMetrics.
  change (reduce (fun acc msg => (acc + or_zero (token_count msg))%float) 0%float)
    with (sum_field token_count).
  change (reduce (fun acc msg => (acc + or_zero (cost msg))%float) 0%float)
    with (sum_field cost).
  change (reduce (fun acc msg => (acc + or_zero (carbon_footprint msg))%float) 0%float)
    with (sum_field carbon_footprint).
  rewrite !sum_field_assistant_only; [reflexivity| | |];
    intros m Hin K; apply (Hnone m Hin K).
Qed.

(** C1, amended: the aggregation is a function of the log alone that
    starts from zero and adds, for every message whatever its sender,
    [token_count || 0], [cost || 0] and [carbon_footprint || 0] to the
    three totals, so that relabelling the senders of a log never changes
    them; it is the sum over the assistant's messages alone whenever the
    user's messages carry no usage field. *)
Theorem metrics_sum_over_every_sender (log : list Message) (msg : Message) (s : Sender) :
  computeMetrics [] = zero_metrics
  /\ computeMetrics (log ++ [msg]) = add_usage (computeMetrics log) msg
  /\ computeMetrics (map (with_sender s) log) = computeMetrics log
  /\ add_usage (computeMetrics log) (with_sender s msg)
     = add_usage (computeMetrics log) msg
  /\ (users_carry_no_usage log = true ->
      computeMetrics log = spec_assistant_metrics log).
Proof.
  split; [reflexivity|]. split; [apply computeMetrics_snoc|].
  split; [apply computeMetrics_with_sender|]. split; [reflexivity|].
  apply computeMetrics_assistant_only.
Qed.

(** The specification's example log: its user message has no usage
    field, and the totals are those of the two assistant messages. *)
Lemma metrics_sum_over_every_sender_witness :
  users_carry_no_usage example_log = true
  /\ computeMetrics example_log = spec_assistant_metrics example_log.
Proof.
  split; [reflexivity|].
  apply (metrics_sum_over_every_sender example_log
           (plain_message 4 (lit "more") user iso0) assistant).
  reflexivity.
Defined.

(** ** The message log *)

Lemma setMessages_same (f : list Message -> list Message) (w : World) :
  f (messages w) = messages w -> setMessages f w = w.
Proof. intros H. destruct w; unfold setMessages; simpl in *. rewrite H. reflexivity. Qed.

Lemma id_present_In (i : Z) (log : list Message) :
  id_present i log = true <-> In i (map id log).
Proof.
  unfold id_present. rewrite existsb_exists, in_map_iff.
  split; intros [m [H1 H2]]; exists m.
  - apply Z.eqb_eq in H2. auto.
  - split; [exact H2|]. apply Z.eqb_eq. exact H1.
Qed.

Lemma find_id_present (i : Z) (log : list Message) :
  id_present i log = true ->
  exists m, find (fun m => Z.eqb (id m) i) log = Some m.
Proof.
  induction log as [|m log IH]; simpl; intros H.
  - discriminate H.
  - destruct (Z.eqb (id m) i) eqn:E.
    + exists m. reflexivity.
    + simpl in H. apply IH. exact H.
Qed.

Lemma find_id_absent (i : Z) (log : list Message) :
  id_present i log = false ->
  find (fun m => Z.eqb (id m) i) log = None.
Proof.
  induction log as [|m log IH]; simpl; intros H.
  - reflexivity.
  - destruct (Z.eqb (id m) i) eqn:E; simpl in H.
    + discriminate H.
    + apply IH. exact H.
Qed.

Lemma ingest_present (payload : Message) (prev : list Message) :
  id_present (id payload) prev = true -> ingest payload prev = prev.
Proof.
  intros H. unfold ingest.
  destruct (find_id_present _ _ H) as [m Hm]. rewrite Hm. reflexivity.
Qed.

Lemma ingest_absent (payload : Message) (prev : list Message) :
  id_present (id payload) prev = false -> ingest payload prev = prev ++ [payload].
Proof.
  intros H. unfold ingest. rewrite (find_id_absent _ _ H). reflexivity.
Qed.

(** C2: when the log holds an entry [m] whose id is the payload's, the
    updater of a [message] frame returns the log itself, so its length,
    every position of it (the entry [m] and its content included) and
    the order are what they were; the handler, given such a frame,
    returns normally and leaves the whole state as it was. *)
Theorem ingest_duplicate_discarded
    (prev : list Message) (m payload : Message)
    (Hin : In m prev) (Hid : id m = id payload) :
  ingest payload prev = prev
  /\ List.length (ingest payload prev) = List.length prev
  /\ (forall i, nth_error (ingest payload prev) i = nth_error prev i)
  /\ In m (ingest payload prev)
  /\ (forall (members : list (jsstring * json)) (w : World),
        messages w = prev ->
        strict_eq_string (member (lit "type") members) (lit "message") = true ->
        as_Message (member (lit "payload") members) = Some payload ->
        onmessage (JSONText (JObject members)) w = (w, Returned)).
Proof.
  assert (Hp : id_present (id payload) prev = true).
  { apply id_present_In. rewrite <- Hid. apply in_map. exact Hin. }
  assert (E : ingest payload prev = prev) by (apply ingest_present; exact Hp).
  rewrite E. repeat split; auto.
  intros members w Hw Hty Hpl. unfold onmessage; simpl.
  rewrite Hty, Hpl. rewrite setMessages_same; [reflexivity|].
  rewrite Hw. exact E.
Qed.

(** A duplicate of [B], with another content, ingested into [A; B; C]. *)
Lemma ingest_duplicate_discarded_witness :
  In (plain_message 2 (lit "B") assistant iso0) abc_log
  /\ ingest (plain_message 2 (lit "other") user iso0) abc_log = abc_log.
Proof.
  assert (Hin : In (plain_message 2 (lit "B") assistant iso0) abc_log)
    by (simpl; right; left; reflexivity).
  split; [exact Hin|].
  exact (proj1 (ingest_duplicate_discarded abc_log
                  (plain_message 2 (lit "B") assistant iso0)
                  (plain_message 2 (lit "other") user iso0)
                  Hin eq_refl)).
Defined.

Lemma unique_ids_snoc (log : list Message) (msg : Message) :
  unique_ids log -> id_present (id msg) log = false -> unique_ids (log ++ [msg]).
Proof.
  unfold unique_ids. intros Hu Hfresh.
  rewrite map_app. simpl.
  assert (Hnot : ~ In (id msg) (map id log)).
  { intros Hin. apply id_present_In in Hin. congruence. }
  clear Hfresh. induction (map id log) as [|i ids IH]; simpl.
  - constructor; [intros []|constructor].
  - inversion Hu as [|? ? Hi Hrest]; subst. constructor.
    + rewrite in_app_iff. intros [H|[H|[]]].
      * exact (Hi H).
      * apply Hnot. left. symmetry. exact H.
    + apply IH; [exact Hrest|]. intros H. apply Hnot. right. exact H.
Qed.

Lemma ingest_unique (payload : Message) (log : list Message) :
  unique_ids log -> unique_ids (ingest payload log).
Proof.
  intros Hu. destruct (id_present (id payload) log) eqn:E.
  - rewrite ingest_present by exact E. exact Hu.
  - rewrite ingest_absent by exact E. apply unique_ids_snoc; assumption.
Qed.

(** C3: starting from a log without repeated ids, and provided every
    optimistic append carries an id that is not in the log at that
    moment, the log after each operation of any sequence of optimistic
    appends and ingests has no two entries with the same id. *)
Theorem unique_ids_preserved (ops : list LogOp) :
  forall (log : list Message),
    unique_ids log ->
    appends_fresh ops log = true ->
    Forall unique_ids (logs_after ops log).
Proof.
  induction ops as [|op ops IH]; intros log Hu Hfresh; simpl.
  - constructor.
  - simpl in Hfresh. apply andb_true_iff in Hfresh. destruct Hfresh as [Hop Hrest].
    assert (Hu' : unique_ids (apply_op op log)).
    { destruct op as [msg|msg]; simpl.
      - apply unique_ids_snoc; [exact Hu|]. apply negb_true_iff. exact Hop.
      - apply ingest_unique. exact Hu. }
    constructor; [exact Hu'|]. apply IH; assumption.
Qed.

Lemma unique_ids_preserved_witness :
  Forall unique_ids (logs_after sample_ops abc_log).
Proof.
  apply (unique_ids_preserved sample_ops abc_log).
  - unfold unique_ids. simpl.
    repeat constructor; simpl; intuition discriminate.
  - reflexivity.
Defined.

(** ** Push frames *)

Lemma as_Message_id (payload : option json) (msg : Message) :
  as_Message payload = Some msg ->
  exists o x,
    payload = Some (JObject o)
    /\ member (lit "id") o = Some (JNumber x)
    /\ number_to_Z x = Some (id msg).
Proof.
  intros H. unfold as_Message in H.
  destruct payload as [[| | | | |o]|]; try discriminate.
  exists o.
  destruct (member (lit "id") o) as [[| |x| | |]|] eqn:Ei;
    simpl in H; try discriminate.
  exists x. split; [reflexivity|]. split; [reflexivity|].
  repeat match type of H with
         | match ?c with _ => _ end = _ => destruct c eqn:?; try discriminate
         end.
  injection H as <-. reflexivity.
Qed.

Lemma get_opt_throws (v : option json) (name : jsstring) (e : JSError) :
  get_opt v name = Throw e -> e = TypeError /\ (v = None \/ v = Some JNull).
Proof.
  destruct v as [[]|]; simpl; intros H; try discriminate;
    injection H as <-; auto.
Qed.

Lemma same_id_throws (payload : option json) (m : Entry) :
  get_opt payload (lit "id") = Throw TypeError ->
  same_id payload m = Throw TypeError.
Proof.
  intros H. destruct m as [msg|value]; simpl; rewrite H; [reflexivity|].
  destruct (get_opt value (lit "id")) as [mi|e] eqn:E; [reflexivity|].
  apply get_opt_throws in E. destruct E as [-> _]. reflexivity.
Qed.

Lemma same_id_result (payload : option json) (m : Entry) (e : JSError) :
  same_id payload m = Throw e -> e = TypeError.
Proof.
  destruct m as [msg|value]; simpl.
  - destruct (get_opt payload (lit "id")) eqn:E; [discriminate|].
    intros H. injection H as <-. apply (get_opt_throws _ _ _ E).
  - destruct (get_opt value (lit "id")) eqn:E.
    + destruct (get_opt payload (lit "id")) eqn:E'; [discriminate|].
      intros H. injection H as <-. apply (get_opt_throws _ _ _ E').
    + intros H. injection H as <-. apply (get_opt_throws _ _ _ E).
Qed.

Lemma find_entry_result (payload : option json) (prev : list Entry) :
  match find_entry payload prev with
  | Throw e => e = TypeError /\ prev <> []
  | Normal None => True
  | Normal (Some m) => In m prev
  end.
Proof.
  induction prev as [|m rest IH]; simpl; [exact I|].
  destruct (same_id payload m) as [[|]|e] eqn:E.
  - left. reflexivity.
  - destruct (find_entry payload rest) as [[m'|]|e'].
    + right. exact IH.
    + exact I.
    + split; [apply IH|discriminate].
  - split; [apply (same_id_result _ _ _ E)|discriminate].
Qed.

Lemma find_entry_typed (payload i : option json) (log : list Message) :
  get_opt payload (lit "id") = Normal i ->
  find_entry payload (map Typed log)
  = Normal (option_map Typed (find (fun m => strict_eq_id (id m) i) log)).
Proof.
  intros H. induction log as [|m log IH]; simpl; [reflexivity|].
  rewrite H. destruct (strict_eq_id (id m) i); [reflexivity|exact IH].
Qed.

Lemma strict_eq_id_payload (payload i : option json) (j : Z) :
  get_opt payload (lit "id") = Normal i ->
  strict_eq_id j i
  = match payload_id payload with
    | Some z => Z.eqb j z
    | None => false
    end.
Proof.
  destruct payload as [[| | | | |o]|]; simpl; intros H; try discriminate;
    injection H as <-; try reflexivity.
  destruct (member (lit "id") o) as [[| |x| | |]|]; reflexivity.
Qed.

Lemma find_is_existsb {A : Type} (f : A -> bool) (l : list A) :
  match find f l with Some _ => true | None => false end = existsb f l.
Proof.
  induction l as [|a l IH]; simpl; [reflexivity|].
  destruct (f a); [reflexivity|exact IH].
Qed.

(** The updater on a log that holds messages only. *)
Lemma onmessage_updater_typed_log (payload : option json) (log : list Message) :
  onmessage_updater payload (map Typed log)
  = match get_opt payload (lit "id") with
    | Throw _ =>
        match log with
        | [] => Normal [entry_of payload]
        | _ :: _ => Throw TypeError
        end
    | Normal _ =>
        Normal (if known_id payload log then map Typed log
                else map Typed log ++ [entry_of payload])
    end.
Proof.
  unfold onmessage_updater.
  destruct (get_opt payload (lit "id")) as [i|e] eqn:E.
  - rewrite (find_entry_typed payload i log E).
    assert (K : match find (fun m => strict_eq_id (id m) i) log with
                | Some _ => true | None => false end
                = known_id payload log).
    { rewrite find_is_existsb. unfold known_id, id_present.
      clear - E. induction log as [|m log IH]; simpl.
      - destruct (payload_id payload); reflexivity.
      - rewrite (strict_eq_id_payload payload i (id m) E), IH.
        destruct (payload_id payload); reflexivity. }
    destruct (find (fun m => strict_eq_id (id m) i) log); simpl;
      rewrite <- K; reflexivity.
  - destruct (get_opt_throws _ _ _ E) as [-> _].
    destruct log as [|m log]; simpl; [reflexivity|].
    rewrite E. reflexivity.
Qed.

(** On a payload that is a [Message] the updater is [ingest]. *)
Lemma onmessage_updater_ingest
    (payload : option json) (msg : Message) (log : list Message) :
  as_Message payload = Some msg ->
  onmessage_updater payload (map Typed log) = Normal (map Typed (ingest msg log)).
Proof.
  intros H. rewrite onmessage_updater_typed_log.
  destruct (as_Message_id payload msg H) as (o & x & -> & Ei & Ez).
  simpl. unfold known_id, payload_id. rewrite Ei, Ez.
  unfold entry_of. rewrite H. unfold ingest, id_present.
  rewrite <- find_is_existsb.
  destruct (find (fun m => (id m =? id msg)%Z) log).
  - reflexivity.
  - rewrite map_app. reflexivity.
Qed.

(** C4, as stated, fails, in two ways. The handler raises on some
    frames: the SyntaxError of [JSON.parse] on a text that is not JSON,
    a TypeError on the frame [null]; the state is untouched then. And a
    malformed [message] frame is not dropped: a payload whose [id] is
    2.5 is appended to the log as it is, and a frame without a payload
    makes the updater throw a TypeError on a log that holds entries. *)
Lemma malformed_frames_are_not_dropped :
  (onmessage (NotJSON (lit "not json")) world_abc = (world_abc, Threw SyntaxError)
   /\ ws_onmessage (NotJSON (lit "not json")) = Raises SyntaxError)
  /\ (onmessage (JSONText JNull) world_abc = (world_abc, Threw TypeError)
      /\ ws_onmessage (JSONText JNull) = Raises TypeError)
  /\ (let payload := member (lit "payload") (echo_members 2.5 "half") in
      as_Message payload = None
      /\ ws_onmessage (JSONText (JObject (echo_members 2.5 "half"))) = Updates payload
      /\ onmessage_updater payload (map Typed (messages world_abc))
         = Normal (map Typed (messages world_abc) ++ [Raw payload]))
  /\ (ws_onmessage (JSONText (JObject [(lit "type", JString (lit "message"))]))
      = Updates None
      /\ onmessage_updater None (map Typed (messages world_abc)) = Throw TypeError
      /\ onmessage_updater None [] = Normal [Raw None]).
Proof. vm_compute. repeat split; reflexivity. Qed.

(** C4, amended: what the handler does with a frame is one of three
    things, and every frame falls under one of them.
    - It raises and leaves the state as it was: the SyntaxError of
      [JSON.parse] when the text is not JSON, a TypeError when the text
      is [null]; no other frame makes the handler raise.
    - It returns without error and leaves the state as it was: every
      other frame that is not a JSON object whose [type] is the string
      [message].
    - It returns without error after handing [setMessages] its updater
      for [data.payload]: every JSON object whose [type] is [message].
      When the payload is a [Message] the updater is [ingest]. When it
      is not, the frame is not dropped: on a log of messages the
      updater throws a TypeError if the payload is missing or [null]
      and the log is not empty, and otherwise appends the payload as it
      is unless the payload's [id] is an integer that the log holds. On
      any log, the updater returns the log as it was, or the log with
      the payload at its tail, or throws a TypeError on a log that is
      not empty. *)
Theorem onmessage_on_every_frame (event_data : FrameData) (w : World) :
  match ws_onmessage event_data with
  | Raises e =>
      onmessage event_data w = (w, Threw e)
      /\ ((exists text, event_data = NotJSON text /\ e = SyntaxError)
          \/ (event_data = JSONText JNull /\ e = TypeError))
  | Drops =>
      onmessage event_data w = (w, Returned)
      /\ is_message_frame event_data = false
      /\ exists value, event_data = JSONText value /\ value <> JNull
  | Updates payload =>
      (exists members,
         event_data = JSONText (JObject members)
         /\ is_message_frame event_data = true
         /\ payload = member (lit "payload") members)
      /\ onmessage event_data w
         = match as_Message payload with
           | Some msg => (setMessages (ingest msg) w, Returned)
           | None => (w, Untyped)
           end
      /\ (forall msg,
            as_Message payload = Some msg ->
            onmessage_updater payload (map Typed (messages w))
            = Normal (map Typed (ingest msg (messages w))))
      /\ onmessage_updater payload (map Typed (messages w))
         = match payload with
           | None | Some JNull =>
               match messages w with
               | [] => Normal [Raw payload]
               | _ :: _ => Throw TypeError
               end
           | Some _ =>
               Normal (if known_id payload (messages w)
                       then map Typed (messages w)
                       else map Typed (messages w) ++ [entry_of payload])
           end
      /\ (forall prev,
            match onmessage_updater payload prev with
            | Normal next => next = prev \/ next = prev ++ [entry_of payload]
            | Throw e => e = TypeError /\ prev <> []
            end)
  end.
Proof.
  destruct event_data as [text|value]; simpl.
  { split; [reflexivity|]. left. exists text. split; reflexivity. }
  assert (U : forall payload prev,
            match onmessage_updater payload prev with
            | Normal next => next = prev \/ next = prev ++ [entry_of payload]
            | Throw e => e = TypeError /\ prev <> []
            end).
  { intros payload prev. unfold onmessage_updater.
    pose proof (find_entry_result payload prev) as F.
    destruct (find_entry payload prev) as [[m|]|e].
    - destruct (entry_truthy m); [left|right]; reflexivity.
    - right. reflexivity.
    - exact F. }
  assert (T : forall payload log,
            onmessage_updater payload (map Typed log)
            = match payload with
              | None | Some JNull =>
                  match log with
                  | [] => Normal [Raw payload]
                  | _ :: _ => Throw TypeError
                  end
              | Some _ =>
                  Normal (if known_id payload log then map Typed log
                          else map Typed log ++ [entry_of payload])
              end).
  { intros payload log. rewrite onmessage_updater_typed_log.
    destruct payload as [[]|]; reflexivity. }
  destruct value as [| b | x | str | items | members];
    unfold ws_onmessage, onmessage; simpl;
    try (split; [reflexivity|]; split; [reflexivity|];
         eexists; split; [reflexivity|discriminate]).
  { split; [reflexivity|]. right. split; reflexivity. }
  destruct (strict_eq_string (member (lit "type") members) (lit "message")) eqn:E.
  - split; [exists members; repeat split; exact E|].
    split; [reflexivity|].
    split; [intros msg; apply onmessage_updater_ingest|].
    split; [apply T|apply U].
  - split; [reflexivity|]. split; [reflexivity|].
    eexists. split; [reflexivity|discriminate].
Qed.

(** A [message] frame for a new id is appended, one for a known id is not. *)
Example onmessage_message_frames :
  let frame i :=
    JSONText (JObject [ (lit "type", JString (lit "message"));
                        (lit "payload",
                         JObject [ (lit "id", JNumber i);
                                   (lit "content", JString (lit "reply"));
                                   (lit "sender", JString (lit "assistant"));
                                   (lit "timestamp", JString iso0);
                                   (lit "token_count", JNumber 12);
                                   (lit "file_url", JNull) ]) ]) in
  map id (messages (fst (onmessage (frame 4%float) world_abc))) = [1; 2; 3; 4]%Z
  /\ onmessage (frame 2%float) world_abc = (world_abc, Returned)
  /\ onmessage (frame 2.5%float) world_abc = (world_abc, Untyped).
Proof. vm_compute. repeat split. Qed.

Example number_to_Z_examples :
  number_to_Z 1764504000000 = Some 1764504000000%Z
  /\ number_to_Z (-3) = Some (-3)%Z
  /\ number_to_Z 0.5 = None
  /\ number_to_Z (0 / 0) = None.
Proof. vm_compute. repeat split. Qed.

(** ** Whitespace *)

Lemma trimStart_nil_iff (s : jsstring) :
  trimStart s = [] <-> whitespace_only s = true.
Proof.
  induction s as [|c s IH]; simpl.
  - split; reflexivity.
  - destruct (is_white_space c); simpl.
    + exact IH.
    + split; discriminate.
Qed.

Lemma trimStart_head (s : jsstring) :
  match trimStart s with
  | [] => True
  | c :: _ => is_white_space c = false
  end.
Proof.
  induction s as [|c s IH]; simpl; [exact I|].
  destruct (is_white_space c) eqn:E; [exact IH|exact E].
Qed.

Lemma whitespace_only_rev (s : jsstring) :
  whitespace_only (rev s) = whitespace_only s.
Proof.
  unfold whitespace_only.
  destruct (forallb is_white_space s) eqn:E.
  - rewrite forallb_forall in *. intros x Hx. apply E. apply in_rev. exact Hx.
  - destruct (forallb is_white_space (rev s)) eqn:E'; [|reflexivity].
    rewrite <- E. symmetry. rewrite forallb_forall in *.
    intros x Hx. apply E'. apply in_rev. rewrite rev_involutive. exact Hx.
Qed.

(** [!content.trim()] holds exactly of the whitespace-only strings. *)
Lemma trim_falsy_iff (s : jsstring) :
  string_falsy (trim s) = whitespace_only s.
Proof.
  destruct (whitespace_only s) eqn:E.
  - apply trimStart_nil_iff in E. unfold trim, trimEnd. rewrite E. reflexivity.
  - destruct (string_falsy (trim s)) eqn:F; [|reflexivity].
    exfalso.
    assert (T : trim s = []) by (destruct (trim s); [reflexivity|discriminate F]).
    unfold trim, trimEnd in T.
    assert (R : trimStart (rev (trimStart s)) = []).
    { rewrite <- (rev_involutive (trimStart (rev (trimStart s)))). rewrite T. reflexivity. }
    apply trimStart_nil_iff in R. rewrite whitespace_only_rev in R.
    pose proof (trimStart_head s) as Hh.
    destruct (trimStart s) as [|c t] eqn:Et.
    + apply trimStart_nil_iff in Et. congruence.
    + simpl in R. rewrite Hh in R. discriminate R.
Qed.

Example trim_examples :
  trim (lit "  hi there ") = lit "hi there"
  /\ trim [0x20; 0xA0; 0x2028; 0x9; 0xFEFF]%N = []
  /\ trim [] = [].
Proof. vm_compute. repeat split. Qed.

(** ** The send pipeline *)

Lemma run_sendMessage_to (b : Backend) (sid content : jsstring)
    (fileUrl fileName : option jsstring) (w : World) :
  run b (sendMessage_to sid content fileUrl fileName) w
  = let req := creation_request sid content fileUrl fileName in
    let entry := tempMsg (Date_now w) (Date_toISOString w) content fileUrl fileName in
    let w2 := emit (Http req)
                (setMessages (appendOptimistic entry) (setIsLoading true w)) in
    (setIsLoading false
       match plain_reply b req with
       | Fulfilled _ => w2
       | Rejected error => console_error "Failed to send message" error w2
       end, tt).
Proof. reflexivity. Qed.

Lemma run_sendMessage_lazy (b : Backend) (content : jsstring)
    (fileUrl fileName : option jsstring) (w : World) :
  run b (sendMessage_lazy content fileUrl fileName) w
  = let w1 := emit (Http create_request) w in
    match session_reply b create_request with
    | Fulfilled data =>
        let sid := ChatSession.id data in
        let w2 := connectWebSocket sid (setCurrentSessionId (Some sid) w1) in
        if string_falsy sid then (w2, tt)
        else run b (sendMessage_to sid content fileUrl fileName) w2
    | Rejected error =>
        (console_error "Failed to create session" error w1, tt)
    end.
Proof.
  unfold run, sendMessage_lazy, bind, createSession, apiClient_session; simpl.
  destruct (session_reply b create_request) as [error|data] eqn:E;
    unfold create_request in E; rewrite E; simpl.
  - reflexivity.
  - destruct (string_falsy (ChatSession.id data)); reflexivity.
Qed.

(** The specification's end-to-end scenario: no session bound, [Hello]
    sent, the backend up. *)
Example send_hello_scenario :
  let w' := fst (run backend_up (sendMessage (lit "Hello") None None) world0) in
  effects w'
  = [ Http (POST (lit "/sessions") (SessionBody (lit "New Chat")));
      WsOpen (lit "ws://localhost:8000/ws/s2");
      Http (POST (lit "/sessions/s2/messages") (MessageBody (lit "Hello") user)) ]
  /\ messages w' = [ tempMsg 1764504000000 iso0 (lit "Hello") None None ]
  /\ currentSessionId w' = Some (lit "s2")
  /\ wsRef w' = Some (lit "ws://localhost:8000/ws/s2")
  /\ isLoading w' = false.
Proof. vm_compute. repeat split. Qed.

Lemma sendMessage_blank (content : jsstring)
    (fileUrl fileName : option jsstring) (w : World) :
  sendable content fileUrl = false ->
  sendMessage content fileUrl fileName w = (w, Settled tt).
Proof.
  unfold sendable, sendMessage. intros H. apply negb_false_iff in H.
  rewrite H. reflexivity.
Qed.

Lemma run_sendMessage_session (b : Backend) (content : jsstring)
    (fileUrl fileName : option jsstring) (w : World) (sid : jsstring) :
  sendable content fileUrl = true ->
  session_for b w = Some sid ->
  run b (sendMessage content fileUrl fileName) w
  = run b (sendMessage_to sid content fileUrl fileName) (session_step b w).
Proof.
  unfold sendable. intros Hs Hsid. apply negb_true_iff in Hs.
  assert (E : run b (sendMessage content fileUrl fileName) w
              = if opt_falsy (currentSessionId w)
                then run b (sendMessage_lazy content fileUrl fileName) w
                else match currentSessionId w with
                     | Some s => run b (sendMessage_to s content fileUrl fileName) w
                     | None => (w, tt)
                     end).
  { unfold run at 1. unfold sendMessage. rewrite Hs.
    destruct (currentSessionId w) as [s|]; simpl; [|reflexivity].
    destruct (string_falsy s); reflexivity. }
  rewrite E. clear E. unfold session_for, session_step in *.
  destruct (opt_falsy (currentSessionId w)).
  - rewrite run_sendMessage_lazy. cbv zeta.
    destruct (session_reply b create_request) as [error|data]; [discriminate Hsid|].
    destruct (string_falsy (ChatSession.id data)); [discriminate Hsid|].
    injection Hsid as <-. reflexivity.
  - rewrite Hsid. reflexivity.
Qed.

Lemma run_sendMessage_no_session (b : Backend) (content : jsstring)
    (fileUrl fileName : option jsstring) (w : World) :
  sendable content fileUrl = true ->
  session_for b w = None ->
  run b (sendMessage content fileUrl fileName) w = (session_step b w, tt).
Proof.
  unfold sendable. intros Hs Hsid. apply negb_true_iff in Hs.
  unfold session_for, session_step in *.
  destruct (opt_falsy (currentSessionId w)) eqn:Ec; [|].
  - assert (E : run b (sendMessage content fileUrl fileName) w
                = run b (sendMessage_lazy content fileUrl fileName) w).
    { unfold run at 1. unfold sendMessage. rewrite Hs.
      destruct (currentSessionId w) as [s|]; simpl in *; [|reflexivity].
      rewrite Ec. reflexivity. }
    rewrite E, run_sendMessage_lazy. cbv zeta.
    destruct (session_reply b create_request) as [error|data]; [reflexivity|].
    destruct (string_falsy (ChatSession.id data)); [reflexivity|discriminate Hsid].
  - destruct (currentSessionId w); discriminate.
Qed.

Lemma requests_app (es es' : list Effect) :
  requests (es ++ es') = requests es ++ requests es'.
Proof.
  induction es as [|e es IH]; simpl; [reflexivity|].
  destruct e; simpl; rewrite IH; reflexivity.
Qed.

Lemma creation_requests_app (es es' : list Effect) :
  creation_requests (es ++ es') = creation_requests es ++ creation_requests es'.
Proof. unfold creation_requests. rewrite requests_app. apply filter_app. Qed.

Lemma connectWebSocket_state (sid : jsstring) (w : World) :
  messages (connectWebSocket sid w) = messages w
  /\ isLoading (connectWebSocket sid w) = isLoading w
  /\ currentSessionId (connectWebSocket sid w) = currentSessionId w
  /\ Date_now (connectWebSocket sid w) = Date_now w
  /\ Date_toISOString (connectWebSocket sid w) = Date_toISOString w
  /\ creation_requests (effects (connectWebSocket sid w)) = creation_requests (effects w).
Proof.
  unfold connectWebSocket. destruct (wsRef w); simpl;
    rewrite ?creation_requests_app; simpl; rewrite ?app_nil_r; repeat split.
Qed.

Lemma session_step_state (b : Backend) (w : World) :
  messages (session_step b w) = messages w
  /\ isLoading (session_step b w) = isLoading w
  /\ Date_now (session_step b w) = Date_now w
  /\ Date_toISOString (session_step b w) = Date_toISOString w
  /\ creation_requests (effects (session_step b w)) = creation_requests (effects w).
Proof.
  unfold session_step.
  destruct (opt_falsy (currentSessionId w)); [|repeat split].
  destruct (session_reply b create_request) as [error|data].
  - simpl. rewrite !creation_requests_app. simpl. rewrite !app_nil_r. repeat split.
  - destruct (connectWebSocket_state (ChatSession.id data)
                (setCurrentSessionId (Some (ChatSession.id data))
                   (emit (Http create_request) w)))
      as (H1 & H2 & _ & H4 & H5 & H6).
    rewrite H1, H2, H4, H5, H6. simpl.
    rewrite creation_requests_app. simpl. rewrite app_nil_r. repeat split.
Qed.

Lemma creation_request_is_creation (sid content : jsstring)
    (fileUrl fileName : option jsstring) :
  is_creation_request (creation_request sid content fileUrl fileName) = true.
Proof.
  unfold creation_request. destruct fileUrl as [url|]; [|reflexivity].
  destruct (string_falsy url); reflexivity.
Qed.

(** The state a send with a session ends in, spelled out. *)
Lemma run_sendMessage_final (b : Backend) (content : jsstring)
    (fileUrl fileName : option jsstring) (w : World) (sid : jsstring) :
  sendable content fileUrl = true ->
  session_for b w = Some sid ->
  let req := creation_request sid content fileUrl fileName in
  let w' := fst (run b (sendMessage content fileUrl fileName) w) in
  messages w'
  = messages w ++ [tempMsg (Date_now w) (Date_toISOString w) content fileUrl fileName]
  /\ isLoading w' = false
  /\ currentSessionId w' = currentSessionId (session_step b w)
  /\ creation_requests (effects w') = creation_requests (effects w) ++ [req]
  /\ effects w'
     = effects (session_step b w) ++ Http req ::
       match plain_reply b req with
       | Fulfilled _ => []
       | Rejected error => [ConsoleError (lit "Failed to send message") error]
       end.
Proof.
  intros Hs Hsid req w'. subst w'.
  rewrite (run_sendMessage_session b content fileUrl fileName w sid Hs Hsid).
  rewrite run_sendMessage_to. cbv zeta. fold req.
  destruct (session_step_state b w) as (H1 & H2 & H3 & H4 & H5).
  pose proof (creation_request_is_creation sid content fileUrl fileName) as Hc.
  fold req in Hc.
  destruct (plain_reply b req) as [error|[]]; simpl;
    rewrite ?creation_requests_app, ?H1, ?H3, ?H4, ?H5; simpl;
    unfold creation_requests at 2; simpl; rewrite ?Hc; simpl;
    rewrite <- ?app_assoc; simpl; repeat split.
Qed.

Lemma accepting_session (b : Backend) (w : World) :
  session_for (accepting b) w = session_for b w
  /\ session_step (accepting b) w = session_step b w.
Proof. split; reflexivity. Qed.

(** C5, as stated, fails: with the session [s1] bound and a backend that
    rejects message creation, the send of [hi] leaves its caller with
    exactly what a successful send leaves: the same resolved value and
    the same returned state. *)
Lemma send_failure_not_surfaced :
  sendable (lit "hi") None = true
  /\ plain_reply backend_no_messages
       (creation_request (lit "s1") (lit "hi") None None)
     = Rejected (lit "Network Error")
  /\ send_observation backend_no_messages (lit "hi") None None world_abc
     = send_observation backend_up (lit "hi") None None world_abc.
Proof. vm_compute. repeat split. Qed.

(** C5, amended: when the creation request of a send is rejected, the
    optimistic entry stays at the tail of the log, that request is the
    only creation request of the send (no retry), and the failure goes
    to [console.error] alone: the promise resolves to the same value,
    and the hook returns the same state, as when the request succeeds.
    Whatever happened to the state while the request was in flight, its
    rejection changes nothing but the busy flag and the console. *)
Theorem send_failure_keeps_entry
    (b : Backend) (content : jsstring) (fileUrl fileName : option jsstring)
    (w : World) (sid : jsstring) (error : Error) :
  sendable content fileUrl = true ->
  session_for b w = Some sid ->
  plain_reply b (creation_request sid content fileUrl fileName) = Rejected error ->
  let w' := fst (run b (sendMessage content fileUrl fileName) w) in
  let w_ok := fst (run (accepting b) (sendMessage content fileUrl fileName) w) in
  messages w'
  = messages w ++ [tempMsg (Date_now w) (Date_toISOString w) content fileUrl fileName]
  /\ creation_requests (effects w')
     = creation_requests (effects w) ++ [creation_request sid content fileUrl fileName]
  /\ effects w' = effects w_ok ++ [ConsoleError (lit "Failed to send message") error]
  /\ send_observation b content fileUrl fileName w
     = send_observation (accepting b) content fileUrl fileName w
  /\ (exists k,
        snd (sendMessage_to sid content fileUrl fileName (session_step b w))
        = AwaitReply (creation_request sid content fileUrl fileName) k
        /\ forall w_late,
            k (Rejected error) w_late
            = (setIsLoading false
                 (console_error "Failed to send message" error w_late), Settled tt)
            /\ k (Fulfilled tt) w_late = (setIsLoading false w_late, Settled tt)).
Proof.
  intros Hs Hsid Hrej w' w_ok.
  destruct (run_sendMessage_final b content fileUrl fileName w sid Hs Hsid)
    as (Hm & Hl & Hc & Hr & He).
  destruct (run_sendMessage_final (accepting b) content fileUrl fileName w sid Hs Hsid)
    as (Hm' & Hl' & Hc' & Hr' & He').
  fold w' in Hm, Hl, Hc, Hr, He. fold w_ok in Hm', Hl', Hc', Hr', He'.
  rewrite Hrej in He. simpl in He'.
  split; [exact Hm|]. split; [exact Hr|]. split; [|split].
  - rewrite He, He'. destruct (accepting_session b w) as [_ ->].
    rewrite <- app_assoc. reflexivity.
  - unfold send_observation.
    destruct (run b (sendMessage content fileUrl fileName) w) as [w1 []] eqn:E1.
    destruct (run (accepting b) (sendMessage content fileUrl fileName) w) as [w2 []] eqn:E2.
    subst w' w_ok. simpl in *. unfold view.
    rewrite Hm, Hm', Hl, Hl', Hc, Hc'. reflexivity.
  - eexists. split; [reflexivity|]. intros w_late. split; reflexivity.
Qed.

Lemma send_failure_keeps_entry_witness :
  messages (fst (run backend_no_messages (sendMessage (lit "hi") None None) world_abc))
  = abc_log ++ [tempMsg 1764504000000 iso0 (lit "hi") None None].
Proof.
  exact (proj1 (send_failure_keeps_entry backend_no_messages (lit "hi") None None
                  world_abc (lit "s1") (lit "Network Error")
                  eq_refl eq_refl eq_refl)).
Defined.

(** C6: a send that passes its first test while no session id is bound,
    and whose session-creation request is rejected, ends there: the
    request and a [console.error] are its only effects; the log, the
    busy flag, the bound session id and the socket are what they were;
    no creation request is issued. Whatever state the rejection finds,
    it adds the [console.error] to it and the send is over. *)
Theorem send_abandoned_when_session_creation_fails
    (b : Backend) (content : jsstring) (fileUrl fileName : option jsstring)
    (w : World) (error : Error) :
  sendable content fileUrl = true ->
  opt_falsy (currentSessionId w) = true ->
  session_reply b create_request = Rejected error ->
  let w' := fst (run b (sendMessage content fileUrl fileName) w) in
  run b (sendMessage content fileUrl fileName) w
  = (console_error "Failed to create session" error (emit (Http create_request) w), tt)
  /\ messages w' = messages w
  /\ view w' = view w
  /\ wsRef w' = wsRef w
  /\ creation_requests (effects w') = creation_requests (effects w)
  /\ (exists k,
        sendMessage content fileUrl fileName w
        = (emit (Http create_request) w, AwaitSession create_request k)
        /\ forall w_late,
            k (Rejected error) w_late
            = (console_error "Failed to create session" error w_late, Settled tt)).
Proof.
  intros Hs Hnone Hrej w'.
  assert (Hsid : session_for b w = None).
  { unfold session_for. rewrite Hnone, Hrej. reflexivity. }
  assert (E : run b (sendMessage content fileUrl fileName) w
              = (console_error "Failed to create session" error
                   (emit (Http create_request) w), tt)).
  { rewrite (run_sendMessage_no_session b content fileUrl fileName w Hs Hsid).
    unfold session_step. rewrite Hnone, Hrej. reflexivity. }
  subst w'. rewrite E. simpl.
  rewrite !creation_requests_app. simpl. rewrite !app_nil_r.
  repeat split.
  assert (L : sendMessage content fileUrl fileName w
              = sendMessage_lazy content fileUrl fileName w).
  { unfold sendable in Hs. apply negb_true_iff in Hs.
    unfold sendMessage. rewrite Hs.
    destruct (currentSessionId w) as [s|]; simpl in *; [|reflexivity].
    rewrite Hnone. reflexivity. }
  rewrite L. eexists. split; [reflexivity|]. intros w_late. reflexivity.
Qed.

Lemma send_abandoned_when_session_creation_fails_witness :
  view (fst (run backend_down (sendMessage (lit "Hello") None None) world0))
  = view world0.
Proof.
  exact (proj1 (proj2 (proj2
           (send_abandoned_when_session_creation_fails backend_down (lit "Hello")
              None None world0 (lit "Network Error") eq_refl eq_refl eq_refl)))).
Defined.

(** C7, as stated, fails: the view shows [abc_log]; the load of another
    session is rejected; the log is still [abc_log], not empty. The same
    holds when the load is started by the effect on [sessionId]. *)
Lemma failed_load_keeps_old_log :
  messages (fst (run backend_down (loadSession (lit "s9")) world_abc)) = abc_log
  /\ messages (fst (run backend_down (useEffect_sessionId (Some (lit "s9"))) world_abc))
     = abc_log
  /\ messages (fst (run backend_down (loadSession (lit "s9")) world_abc)) <> [].
Proof. split; [reflexivity|]. split; [reflexivity|]. discriminate. Qed.

(** C7, amended: a rejected session load changes neither the log nor
    the bound session id, in whatever state the rejection finds them;
    its effects are the request and one [console.error]. The log is
    empty afterwards exactly when it was empty before (as it is when the
    hook is first mounted). *)
Theorem failed_load_leaves_log_unchanged
    (b : Backend) (sid : jsstring) (w : World) (error : Error) :
  session_reply b (GET (lit "/sessions/" ++ sid)) = Rejected error ->
  let w' := fst (run b (loadSession sid) w) in
  run b (loadSession sid) w
  = (console_error "Failed to load session" error
       (emit (Http (GET (lit "/sessions/" ++ sid))) w), tt)
  /\ messages w' = messages w
  /\ view w' = view w
  /\ (messages w' = [] <-> messages w = [])
  /\ (exists k,
        loadSession sid w
        = (emit (Http (GET (lit "/sessions/" ++ sid))) w,
           AwaitSession (GET (lit "/sessions/" ++ sid)) k)
        /\ forall w_late,
            k (Rejected error) w_late
            = (console_error "Failed to load session" error w_late, Settled tt)).
Proof.
  intros Hrej w'.
  assert (E : run b (loadSession sid) w
              = (console_error "Failed to load session" error
                   (emit (Http (GET (lit "/sessions/" ++ sid))) w), tt)).
  { unfold run, loadSession, apiClient_session. simpl.
    simpl in Hrej. rewrite Hrej. reflexivity. }
  subst w'. rewrite E. simpl. repeat split; auto.
  eexists. split; [reflexivity|]. intros w_late. reflexivity.
Qed.

Lemma failed_load_leaves_log_unchanged_witness :
  messages (fst (run backend_down (loadSession (lit "s9")) world_abc))
  = messages world_abc.
Proof.
  exact (proj1 (proj2
           (failed_load_leaves_log_unchanged backend_down (lit "s9") world_abc
              (lit "Network Error") eq_refl))).
Defined.

(** C8: a send whose content is empty or whitespace-only and which has
    no attachment (no url, or the empty url) returns at once: the state
    is the one it started from (no entry appended, session id as it
    was, no request or other effect), nothing is pending, and under
    every backend the caller is handed back the state it had. *)
Theorem blank_send_is_noop
    (content : jsstring) (fileUrl fileName : option jsstring) (w : World) :
  whitespace_only content = true ->
  opt_falsy fileUrl = true ->
  sendMessage content fileUrl fileName w = (w, Settled tt)
  /\ (forall b, run b (sendMessage content fileUrl fileName) w = (w, tt))
  /\ (forall b, send_observation b content fileUrl fileName w = (tt, view w)).
Proof.
  intros Hws Hfile.
  assert (E : sendMessage content fileUrl fileName w = (w, Settled tt)).
  { apply sendMessage_blank. unfold sendable.
    rewrite trim_falsy_iff, Hws, Hfile. reflexivity. }
  split; [exact E|].
  split; intros b; unfold send_observation, run; rewrite E; reflexivity.
Qed.

Lemma blank_send_is_noop_witness :
  sendMessage [] None None world0 = (world0, Settled tt)
  /\ sendMessage (lit "   ") (Some []) None world_abc = (world_abc, Settled tt).
Proof.
  split.
  - exact (proj1 (blank_send_is_noop [] None None world0 eq_refl eq_refl)).
  - exact (proj1 (blank_send_is_noop (lit "   ") (Some []) None world_abc
                    eq_refl eq_refl)).
Defined.

(** C9, as stated, fails: the send of [hi] passes the first test, no
    session is bound and the backend rejects the session creation: the
    send calls neither creation endpoint. *)
Lemma send_without_session_calls_no_endpoint :
  sendable (lit "hi") None = true
  /\ creation_requests
       (effects (fst (run backend_down (sendMessage (lit "hi") None None) world0)))
     = [].
Proof. vm_compute. split; reflexivity. Qed.

(** C9, amended: a send that passes its first test and has a session id
    [sid] (bound, or created for it) issues exactly one creation
    request: to [/sessions/sid/messages/with-rag] with content, sender
    [user], file url and file name when a url is given and not empty, to
    [/sessions/sid/messages] with content and sender [user] otherwise. *)
Theorem creation_endpoint_by_attachment
    (b : Backend) (content : jsstring) (fileUrl fileName : option jsstring)
    (w : World) (sid : jsstring) :
  sendable content fileUrl = true ->
  session_for b w = Some sid ->
  exists req,
    creation_requests
      (effects (fst (run b (sendMessage content fileUrl fileName) w)))
    = creation_requests (effects w) ++ [req]
    /\ (opt_falsy fileUrl = true ->
        req = POST (lit "/sessions/" ++ sid ++ lit "/messages")
                   (MessageBody content user))
    /\ (forall url, fileUrl = Some url -> string_falsy url = false ->
        req = POST (lit "/sessions/" ++ sid ++ lit "/messages/with-rag")
                   (RagBody content user url fileName)).
Proof.
  intros Hs Hsid.
  destruct (run_sendMessage_final b content fileUrl fileName w sid Hs Hsid)
    as (_ & _ & _ & Hr & _).
  exists (creation_request sid content fileUrl fileName).
  split; [exact Hr|]. unfold creation_request. split.
  - intros Hf. destruct fileUrl as [url|]; [|reflexivity].
    simpl in Hf. rewrite Hf. reflexivity.
  - intros url -> Hu. rewrite Hu. reflexivity.
Qed.

Lemma creation_endpoint_by_attachment_witness :
  creation_requests
    (effects (fst (run backend_up
                     (sendMessage (lit "hi") (Some (lit "http://x/doc.pdf"))
                                  (Some (lit "doc.pdf")))
                     world_abc)))
  = [ POST (lit "/sessions/s1/messages/with-rag")
           (RagBody (lit "hi") user (lit "http://x/doc.pdf") (Some (lit "doc.pdf"))) ]
  /\ creation_requests
       (effects (fst (run backend_up (sendMessage (lit "hi") None None) world0)))
     = [ POST (lit "/sessions/s2/messages") (MessageBody (lit "hi") user) ].
Proof.
  split.
  - destruct (creation_endpoint_by_attachment backend_up (lit "hi")
                (Some (lit "http://x/doc.pdf")) (Some (lit "doc.pdf"))
                world_abc (lit "s1") eq_refl eq_refl) as (req & Hr & _ & Hrag).
    rewrite Hr, (Hrag _ eq_refl eq_refl). reflexivity.
  - destruct (creation_endpoint_by_attachment backend_up (lit "hi") None None
                world0 (lit "s2") eq_refl eq_refl) as (req & Hr & Hplain & _).
    rewrite Hr, (Hplain eq_refl). reflexivity.
Defined.

Lemma sendMessage_bound (content : jsstring) (fileUrl fileName : option jsstring)
    (w : World) (sid : jsstring) :
  sendable content fileUrl = true ->
  currentSessionId w = Some sid ->
  string_falsy sid = false ->
  sendMessage content fileUrl fileName w
  = sendMessage_to sid content fileUrl fileName w.
Proof.
  unfold sendable, sendMessage. intros Hs Hsid Hne.
  apply negb_true_iff in Hs. rewrite Hs, Hsid, Hne. reflexivity.
Qed.

(** C10: the id of every optimistic entry is the reading of [Date.now()]
    at the moment the entry is built, whatever is already in the log;
    so when two sends are started on a bound session, the second while
    the first request is still pending, the log ends with their two
    entries, and if the clock still shows the same millisecond both
    carry the same id: the ids of the log are no longer unique. *)
Theorem provisional_id_is_clock_reading
    (w : World) (sid c1 c2 : jsstring) (fu1 fn1 fu2 fn2 : option jsstring)
    (now2 : Z) (iso2 : jsstring) :
  currentSessionId w = Some sid ->
  string_falsy sid = false ->
  sendable c1 fu1 = true ->
  sendable c2 fu2 = true ->
  let w1 := fst (sendMessage c1 fu1 fn1 w) in
  let w2 := fst (sendMessage c2 fu2 fn2 (set_clock now2 iso2 w1)) in
  (forall sid' c fu fn w0,
      exists entry,
        messages (fst (sendMessage_to sid' c fu fn w0)) = messages w0 ++ [entry]
        /\ id entry = Date_now w0)
  /\ (exists e1 e2,
        messages w2 = messages w ++ [e1; e2]
        /\ id e1 = Date_now w /\ id e2 = now2
        /\ content e1 = c1 /\ content e2 = c2)
  /\ (exists k1 k2,
        snd (sendMessage c1 fu1 fn1 w)
        = AwaitReply (creation_request sid c1 fu1 fn1) k1
        /\ snd (sendMessage c2 fu2 fn2 (set_clock now2 iso2 w1))
           = AwaitReply (creation_request sid c2 fu2 fn2) k2)
  /\ (now2 = Date_now w -> ~ unique_ids (messages w2)).
Proof.
  intros Hsid Hne Hs1 Hs2 w1 w2.
  assert (E1 : sendMessage c1 fu1 fn1 w = sendMessage_to sid c1 fu1 fn1 w)
    by (apply sendMessage_bound; assumption).
  assert (Hsid1 : currentSessionId (set_clock now2 iso2 w1) = Some sid)
    by (subst w1; rewrite E1; exact Hsid).
  assert (E2 : sendMessage c2 fu2 fn2 (set_clock now2 iso2 w1)
               = sendMessage_to sid c2 fu2 fn2 (set_clock now2 iso2 w1))
    by (apply sendMessage_bound; assumption).
  assert (M2 : messages w2
               = messages w ++ [tempMsg (Date_now w) (Date_toISOString w) c1 fu1 fn1;
                                tempMsg now2 iso2 c2 fu2 fn2]).
  { subst w2. rewrite E2. subst w1. rewrite E1. simpl.
    unfold appendOptimistic. rewrite <- app_assoc. reflexivity. }
  split; [|split; [|split]].
  - intros sid' c fu fn w0. eexists. split; reflexivity.
  - do 2 eexists. split; [exact M2|]. repeat split.
  - rewrite E2, E1. do 2 eexists. split; reflexivity.
  - intros Hnow. unfold unique_ids. rewrite M2, map_app. simpl. intros Hnd.
    apply NoDup_remove_2 in Hnd. apply Hnd.
    apply in_or_app. right. left. exact Hnow.
Qed.

(** Two sends on the session [s1] within the millisecond [world_abc] shows. *)
Lemma provisional_id_is_clock_reading_witness :
  ~ unique_ids
      (messages
         (fst (sendMessage (lit "again") None None
                 (set_clock 1764504000000 iso0
                    (fst (sendMessage (lit "hi") None None world_abc)))))).
Proof.
  apply (provisional_id_is_clock_reading world_abc (lit "s1") (lit "hi")
           (lit "again") None None None None 1764504000000 iso0
           eq_refl eq_refl eq_refl eq_refl).
  reflexivity.
Defined.

(** * Further properties of the code *)

(** ** Endpoints *)

(** X1: each of the two message endpoints is injective in the session
    id, the attachment-aware one is the plain one followed by
    [/with-rag], and no endpoint of one kind is an endpoint of the other
    kind or the session list, whatever the session ids. *)
Theorem endpoints_apart (s1 s2 : jsstring) :
  (endpoints.messages s1 = endpoints.messages s2 -> s1 = s2)
  /\ (endpoints.messagesWithRag s1 = endpoints.messagesWithRag s2 -> s1 = s2)
  /\ endpoints.messagesWithRag s1 = endpoints.messages s1 ++ lit "/with-rag"
  /\ endpoints.messages s1 <> endpoints.messagesWithRag s2
  /\ endpoints.messages s1 <> endpoints.sessions
  /\ endpoints.messagesWithRag s1 <> endpoints.sessions.
Proof.
  unfold endpoints.messages, endpoints.messagesWithRag, endpoints.sessions.
  repeat split.
  - intros H. apply app_inv_head in H. apply app_inv_tail in H. exact H.
  - intros H. apply app_inv_head in H. apply app_inv_tail in H. exact H.
  - rewrite <- !app_assoc. reflexivity.
  - intros H. apply app_inv_head in H.
    apply (f_equal (@rev N)) in H. rewrite !rev_app_distr in H.
    simpl in H. discriminate H.
  - intros H. apply (f_equal (@List.length N)) in H.
    rewrite !length_app in H. simpl in H. lia.
  - intros H. apply (f_equal (@List.length N)) in H.
    rewrite !length_app in H. simpl in H. lia.
Qed.

(** ** The log under frames and sends *)

Lemma id_present_snoc (i : Z) (log : list Message) (msg : Message) :
  id_present i (log ++ [msg]) = id_present i log || Z.eqb (id msg) i.
Proof.
  unfold id_present. rewrite existsb_app. simpl. rewrite orb_false_r. reflexivity.
Qed.

Lemma ingest_cases (payload : Message) (log : list Message) :
  ingest payload log
  = if id_present (id payload) log then log else log ++ [payload].
Proof.
  destruct (id_present (id payload) log) eqn:E.
  - apply ingest_present. exact E.
  - apply ingest_absent. exact E.
Qed.

Lemma ingest_then_present (payload : Message) (log : list Message) :
  id_present (id payload) (ingest payload log) = true.
Proof.
  rewrite ingest_cases. destruct (id_present (id payload) log) eqn:E.
  - exact E.
  - rewrite id_present_snoc, Z.eqb_refl. apply orb_true_r.
Qed.

(** X2: ingesting is idempotent: a payload delivered twice leaves the
    log that one delivery leaves, and after a delivery the payload's id
    is in the log, whether or not it was there before. *)
Theorem ingest_idempotent (payload : Message) (log : list Message) :
  ingest payload (ingest payload log) = ingest payload log
  /\ id_present (id payload) (ingest payload log) = true.
Proof.
  split; [|apply ingest_then_present].
  apply ingest_present. apply ingest_then_present.
Qed.

Lemma apply_op_extends (op : LogOp) (log : list Message) :
  exists tail, apply_op op log = log ++ tail /\ (List.length tail <= 1)%nat.
Proof.
  destruct op as [msg|msg]; simpl.
  - exists [msg]. split; [reflexivity|simpl; lia].
  - rewrite ingest_cases. destruct (id_present (id msg) log).
    + exists []. rewrite app_nil_r. split; [reflexivity|simpl; lia].
    + exists [msg]. split; [reflexivity|simpl; lia].
Qed.

(** X3: optimistic appends and ingests only ever add at the tail: after
    any sequence of them the log it started from is still there, entry
    for entry and in the same order, followed by at most one new entry
    per operation. *)
Theorem log_ops_append_only (ops : list LogOp) :
  forall log : list Message,
    exists tail,
      apply_ops ops log = log ++ tail
      /\ (List.length tail <= List.length ops)%nat.
Proof.
  unfold apply_ops.
  induction ops as [|op ops IH]; intros log; simpl.
  - exists []. rewrite app_nil_r. split; [reflexivity|simpl; lia].
  - destruct (apply_op_extends op log) as (t1 & E1 & L1).
    destruct (IH (apply_op op log)) as (t2 & E2 & L2).
    exists (t1 ++ t2). rewrite E2, E1, <- app_assoc. split; [reflexivity|].
    rewrite length_app. lia.
Qed.

Lemma setMessages_setMessages (f g : list Message -> list Message) (w : World) :
  setMessages f (setMessages g w) = setMessages (fun log => f (g log)) w.
Proof. reflexivity. Qed.

(** What the handler does to the state is decided by the frame alone. *)
Lemma onmessage_frame_payload (data : FrameData) (w : World) :
  fst (onmessage data w)
  = match frame_payload data with
    | Some msg => setMessages (ingest msg) w
    | None => w
    end.
Proof.
  unfold onmessage, frame_payload.
  destruct data as [text|v]; simpl; [reflexivity|].
  destruct v; simpl; try reflexivity.
  destruct (strict_eq_string (member (lit "type") members) (lit "message"));
    [|reflexivity].
  destruct (as_Message (member (lit "payload") members)); reflexivity.
Qed.

Lemma onmessage_extends (data : FrameData) (w : World) :
  (exists tail,
     messages (fst (onmessage data w)) = messages w ++ tail
     /\ (List.length tail <= 1)%nat)
  /\ setMessages (fun _ => messages w) (fst (onmessage data w)) = w
  /\ (unique_ids (messages w) -> unique_ids (messages (fst (onmessage data w)))).
Proof.
  rewrite onmessage_frame_payload.
  destruct (frame_payload data) as [msg|].
  - split; [|split].
    + destruct (apply_op_extends (OpIngest msg) (messages w)) as (t & E & L).
      exists t. split; [exact E|exact L].
    + rewrite setMessages_setMessages. apply setMessages_same. reflexivity.
    + intros Hu. apply ingest_unique. exact Hu.
  - split; [|split].
    + exists []. rewrite app_nil_r. split; [reflexivity|simpl; lia].
    + apply setMessages_same. reflexivity.
    + auto.
Qed.

Lemma deliver_cons (data : FrameData) (frames : list FrameData) (w w' : World) :
  deliver (data :: frames) w = Some w' ->
  snd (onmessage data w) <> Untyped
  /\ deliver frames (fst (onmessage data w)) = Some w'.
Proof.
  simpl. destruct (onmessage data w) as [w1 [|e|]]; simpl; intros H;
    try discriminate; split; try exact H; discriminate.
Qed.

(** Whether a frame is one the typed state can follow is decided by the
    frame alone. *)
Lemma onmessage_outcome (data : FrameData) (w w' : World) :
  snd (onmessage data w) = snd (onmessage data w').
Proof.
  unfold onmessage.
  destruct (JSON_parse data) as [v|e]; [|reflexivity].
  destruct (get v (lit "type")) as [type|e]; [|reflexivity].
  destruct (strict_eq_string type (lit "message")); [|reflexivity].
  destruct (get v (lit "payload")) as [payload|e]; [|reflexivity].
  destruct (as_Message payload); reflexivity.
Qed.

Lemma deliver_extends (frames : list FrameData) :
  forall w w' : World,
    deliver frames w = Some w' ->
    (exists tail,
       messages w' = messages w ++ tail
       /\ (List.length tail <= List.length frames)%nat)
    /\ setMessages (fun _ => messages w) w' = w
    /\ (unique_ids (messages w) -> unique_ids (messages w')).
Proof.
  induction frames as [|data frames IH]; intros w w' H.
  - injection H as <-. split; [|split].
    + exists []. rewrite app_nil_r. split; [reflexivity|simpl; lia].
    + apply setMessages_same. reflexivity.
    + auto.
  - apply deliver_cons in H. destruct H as [_ H].
    destruct (onmessage_extends data w) as ((t1 & E1 & L1) & S1 & U1).
    destruct (IH _ _ H) as ((t2 & E2 & L2) & S2 & U2).
    split; [|split].
    + exists (t1 ++ t2). rewrite E2, E1, <- app_assoc. split; [reflexivity|].
      rewrite length_app. simpl. lia.
    + pose proof (f_equal (setMessages (fun _ => messages w)) S2) as S.
      rewrite setMessages_setMessages in S. rewrite S1 in S. exact S.
    + intros Hu. apply U2, U1, Hu.
Qed.

(** X4: the frames of a list are handed to the handler one after the
    other, none of them a [message] frame whose payload is not a
    [Message]. Whatever else they are (text that is not JSON, on which
    the handler throws, frames of other kinds, messages old and new) the
    handler only ever adds entries at the tail of the log, at most one
    per frame; it changes nothing else of the hook's state (busy flag,
    session id, socket, requests); and it keeps the ids of the log
    unique if they were. *)
Theorem frames_only_extend_the_log (frames : list FrameData) (w w' : World) :
  deliver frames w = Some w' ->
  (exists tail,
     messages w' = messages w ++ tail
     /\ (List.length tail <= List.length frames)%nat)
  /\ setMessages (fun _ => messages w) w' = w
  /\ (unique_ids (messages w) -> unique_ids (messages w')).
Proof. apply deliver_extends. Qed.

Lemma frames_only_extend_the_log_witness :
  (exists tail,
     messages delivered_sample = messages world_abc ++ tail
     /\ (List.length tail <= List.length sample_frames)%nat)
  /\ setMessages (fun _ => messages world_abc) delivered_sample = world_abc
  /\ (unique_ids (messages world_abc) -> unique_ids (messages delivered_sample)).
Proof.
  apply (frames_only_extend_the_log sample_frames world_abc delivered_sample).
  vm_compute. reflexivity.
Defined.

Lemma deliver_app (frames frames' : list FrameData) :
  forall w : World,
    deliver (frames ++ frames') w
    = match deliver frames w with
      | Some w1 => deliver frames' w1
      | None => None
      end.
Proof.
  induction frames as [|data frames IH]; intros w; simpl; [reflexivity|].
  destruct (onmessage data w) as [w1 [|e|]]; auto.
Qed.

Lemma id_present_app (i : Z) (log tail : list Message) :
  id_present i log = true -> id_present i (log ++ tail) = true.
Proof.
  unfold id_present. rewrite existsb_app. intros ->. reflexivity.
Qed.

Lemma absorbed_noop (data : FrameData) (w : World) :
  absorbed data w -> fst (onmessage data w) = w.
Proof.
  unfold absorbed. rewrite onmessage_frame_payload.
  destruct (frame_payload data) as [msg|]; [|reflexivity].
  intros H. apply setMessages_same. apply ingest_present. exact H.
Qed.

Lemma absorbed_after (data : FrameData) (w : World) :
  absorbed data (fst (onmessage data w)).
Proof.
  unfold absorbed. rewrite onmessage_frame_payload.
  destruct (frame_payload data) as [msg|]; [|exact I].
  simpl. apply ingest_then_present.
Qed.

Lemma absorbed_deliver (data : FrameData) (frames : list FrameData) (w w' : World) :
  deliver frames w = Some w' -> absorbed data w -> absorbed data w'.
Proof.
  intros Hd. unfold absorbed. destruct (frame_payload data) as [msg|]; [|auto].
  intros H.
  destruct (deliver_extends frames w w' Hd) as ((t & E & _) & _).
  rewrite E. apply id_present_app. exact H.
Qed.

Lemma deliver_absorbed (frames : list FrameData) (w : World) :
  (forall data, In data frames ->
                absorbed data w /\ snd (onmessage data w) <> Untyped) ->
  deliver frames w = Some w.
Proof.
  induction frames as [|data frames IH]; intros H; simpl; [reflexivity|].
  destruct (H data (or_introl eq_refl)) as [Ha Ht].
  apply absorbed_noop in Ha.
  destruct (onmessage data w) as [w1 o]. simpl in Ha, Ht. subst w1.
  assert (R : deliver frames w = Some w).
  { apply IH. intros d Hd. apply H. right. exact Hd. }
  destruct o; [exact R|exact R|contradiction].
Qed.

Lemma deliver_absorbs (frames : list FrameData) :
  forall (w w' : World) (data : FrameData),
    deliver frames w = Some w' ->
    In data frames ->
    absorbed data w' /\ snd (onmessage data w') <> Untyped.
Proof.
  induction frames as [|d frames IH]; intros w w' data Hd Hin; [destruct Hin|].
  apply deliver_cons in Hd. destruct Hd as [Ht Hd].
  destruct Hin as [<-|Hin].
  - split.
    + apply (absorbed_deliver d frames _ w' Hd). apply absorbed_after.
    + rewrite (onmessage_outcome d w' w). exact Ht.
  - apply (IH _ w' data Hd Hin).
Qed.

(** X5: the frames of a list have been delivered, none of them a
    [message] frame whose payload is not a [Message]. Any of them can be
    delivered again, in any order and any number of times, without any
    effect: the state (and so the log and the usage totals computed
    from it) is the one the first delivery left. *)
Theorem replayed_frames_change_nothing
    (frames again : list FrameData) (w w' : World) :
  deliver frames w = Some w' ->
  incl again frames ->
  deliver (frames ++ again) w = Some w'.
Proof.
  intros Hd Hincl. rewrite deliver_app, Hd.
  apply deliver_absorbed.
  intros data Hin. apply (deliver_absorbs frames w w' data Hd).
  apply Hincl. exact Hin.
Qed.

Lemma replayed_frames_change_nothing_witness :
  deliver (sample_frames ++ [JSONText (JObject (echo_members 4 "reply"))]) world_abc
  = Some delivered_sample.
Proof.
  apply (replayed_frames_change_nothing
           sample_frames [JSONText (JObject (echo_members 4 "reply"))]
           world_abc delivered_sample).
  - vm_compute. reflexivity.
  - intros data [<-|[]]. left. reflexivity.
Defined.

Example deliver_example :
  map id (messages delivered_sample) = [1; 2; 3; 4]%Z
  /\ deliver [JSONText (JObject (echo_members 2.5 "half"))] world_abc = None.
Proof. vm_compute. split; reflexivity. Qed.

(** ** Sends, echoes and the usage totals *)

Lemma add_usage_without_usage (log : list Message) (msg : Message) :
  token_count msg = None -> cost msg = None -> carbon_footprint msg = None ->
  add_usage (computeMetrics log) msg = computeMetrics log.
Proof.
  intros Ht Hc Hf. unfold add_usage, computeMetrics, reduce. simpl.
  rewrite Ht, Hc, Hf. simpl.
  rewrite !add_zero_r;
    try (apply fold_total_not_neg_zero; vm_compute; discriminate).
  reflexivity.
Qed.

(** X6: no call of [sendMessage] changes the usage totals, whatever the
    backend answers: the optimistic entry it may append carries no
    usage field, so the totals computed from the log after the send are
    those computed before it. *)
Theorem send_leaves_totals
    (b : Backend) (content : jsstring) (fileUrl fileName : option jsstring)
    (w : World) :
  computeMetrics (messages (fst (run b (sendMessage content fileUrl fileName) w)))
  = computeMetrics (messages w).
Proof.
  destruct (sendable content fileUrl) eqn:Hs.
  - destruct (session_for b w) as [sid|] eqn:Hsid.
    + destruct (run_sendMessage_final b content fileUrl fileName w sid Hs Hsid)
        as (Hm & _).
      rewrite Hm, computeMetrics_snoc.
      apply add_usage_without_usage; reflexivity.
    + rewrite (run_sendMessage_no_session b content fileUrl fileName w Hs Hsid).
      simpl. destruct (session_step_state b w) as (Hm & _). rewrite Hm. reflexivity.
  - unfold run. rewrite (sendMessage_blank content fileUrl fileName w Hs).
    reflexivity.
Qed.

(** X7: the echo of a sent message is matched to its optimistic entry by
    id alone. If the frame that follows a send carries an id that is
    neither in the log nor the provisional id, its payload is added
    after the optimistic entry, which stays: the message is in the log
    twice. If it carries the provisional id, the payload is dropped and
    the optimistic entry is all there is. *)
Theorem echo_is_matched_by_id_alone
    (w : World) (sid content : jsstring) (fileUrl fileName : option jsstring)
    (data : FrameData) (payload : Message) :
  currentSessionId w = Some sid ->
  string_falsy sid = false ->
  sendable content fileUrl = true ->
  frame_payload data = Some payload ->
  id_present (id payload) (messages w) = false ->
  let entry := tempMsg (Date_now w) (Date_toISOString w) content fileUrl fileName in
  let w1 := fst (sendMessage content fileUrl fileName w) in
  messages (fst (onmessage data w1))
  = messages w ++ entry ::
    (if Z.eqb (Date_now w) (id payload) then [] else [payload]).
Proof.
  intros Hsid Hne Hs Hp Habs entry w1.
  rewrite onmessage_frame_payload, Hp. subst w1.
  rewrite (sendMessage_bound content fileUrl fileName w sid Hs Hsid Hne).
  simpl. rewrite ingest_cases. unfold appendOptimistic.
  rewrite id_present_snoc, Habs. simpl. fold entry.
  destruct (Z.eqb (Date_now w) (id payload)).
  - reflexivity.
  - rewrite <- app_assoc. reflexivity.
Qed.

Lemma echo_is_matched_by_id_alone_witness :
  map content
    (messages
       (fst (onmessage (JSONText (JObject (echo_members 99 "hi")))
               (fst (sendMessage (lit "hi") None None world_abc)))))
  = [lit "A"; lit "B"; lit "C"; lit "hi"; lit "hi"].
Proof.
  rewrite (echo_is_matched_by_id_alone world_abc (lit "s1") (lit "hi") None None
             (JSONText (JObject (echo_members 99 "hi")))
             (plain_message 99 (lit "hi") user iso0)
             eq_refl eq_refl eq_refl eq_refl eq_refl).
  reflexivity.
Defined.

(** X8: the busy flag is one boolean, not a count of sends in flight.
    When a second send is started while the first is pending both
    requests are in flight and the flag is set; the settling of the
    first, with whatever result, clears the flag and ends that send,
    while the second request is still pending. *)
Theorem busy_flag_cleared_by_first_settle
    (w : World) (sid c1 c2 : jsstring) (fu1 fn1 fu2 fn2 : option jsstring) :
  currentSessionId w = Some sid ->
  string_falsy sid = false ->
  sendable c1 fu1 = true ->
  sendable c2 fu2 = true ->
  let w1 := fst (sendMessage c1 fu1 fn1 w) in
  let w2 := fst (sendMessage c2 fu2 fn2 w1) in
  isLoading w1 = true
  /\ isLoading w2 = true
  /\ exists k1 k2,
       snd (sendMessage c1 fu1 fn1 w)
       = AwaitReply (creation_request sid c1 fu1 fn1) k1
       /\ snd (sendMessage c2 fu2 fn2 w1)
          = AwaitReply (creation_request sid c2 fu2 fn2) k2
       /\ forall res,
            isLoading (fst (k1 res w2)) = false
            /\ snd (k1 res w2) = Settled tt
            /\ messages (fst (k1 res w2)) = messages w2.
Proof.
  intros Hsid Hne Hs1 Hs2 w1 w2.
  assert (E1 : sendMessage c1 fu1 fn1 w = sendMessage_to sid c1 fu1 fn1 w)
    by (apply sendMessage_bound; assumption).
  assert (Hsid1 : currentSessionId w1 = Some sid)
    by (subst w1; rewrite E1; exact Hsid).
  assert (E2 : sendMessage c2 fu2 fn2 w1 = sendMessage_to sid c2 fu2 fn2 w1)
    by (apply sendMessage_bound; assumption).
  subst w2. rewrite E2. subst w1. rewrite E1.
  split; [reflexivity|]. split; [reflexivity|].
  do 2 eexists. split; [reflexivity|]. split; [reflexivity|].
  intros [error|[]]; repeat split.
Qed.

Lemma busy_flag_cleared_by_first_settle_witness :
  isLoading (fst (sendMessage (lit "again") None None
                    (fst (sendMessage (lit "hi") None None world_abc))))
  = true.
Proof.
  exact (proj1 (proj2
           (busy_flag_cleared_by_first_settle world_abc (lit "s1") (lit "hi")
              (lit "again") None None None None
              eq_refl eq_refl eq_refl eq_refl))).
Defined.

(** ** Invariants of the event loop *)

Ltac stable_step HS :=
  repeat first
    [ assumption
    | apply (stable_setMessages _ HS)
    | apply (stable_setIsLoading _ HS)
    | apply (stable_setCurrentSessionId _ HS)
    | apply (stable_console _ HS)
    | apply (stable_connect _ HS)
    | apply (stable_cleanup _ HS)
    | apply (stable_clock _ HS)
    | apply (stable_request _ HS); [solve [constructor; assumption]|] ].

Lemma sendMessage_to_preserves (I : World -> Prop) (HS : stable I)
    (sid content : jsstring) (fileUrl fileName : option jsstring) :
  string_falsy sid = false ->
  task_preserves I (sendMessage_to sid content fileUrl fileName).
Proof.
  intros Hsid w Hw. unfold sendMessage_to, apiClient_post.
  split.
  - stable_step HS.
  - simpl. intros res w' Hw'. split; [|exact Logic.I].
    destruct res as [error|data]; unfold console_error; stable_step HS.
Qed.

Lemma sendMessage_lazy_preserves (I : World -> Prop) (HS : stable I)
    (content : jsstring) (fileUrl fileName : option jsstring) :
  task_preserves I (sendMessage_lazy content fileUrl fileName).
Proof.
  intros w Hw. unfold sendMessage_lazy, bind, createSession, apiClient_session.
  simpl. split.
  - fold create_request. stable_step HS.
  - intros res w' Hw'. destruct res as [error|data].
    + simpl. split; [|exact Logic.I]. unfold console_error. stable_step HS.
    + change (match
                (if string_falsy (ChatSession.id data) then ret tt
                 else sendMessage_to (ChatSession.id data) content fileUrl fileName)
                  (connectWebSocket (ChatSession.id data)
                     (setCurrentSessionId (Some (ChatSession.id data)) w'))
              with
              | (w1, p1) => I w1 /\ preserves I p1
              end).
      destruct (string_falsy (ChatSession.id data)) eqn:E.
      * simpl. split; [|exact Logic.I]. stable_step HS.
      * apply (sendMessage_to_preserves I HS _ content fileUrl fileName E).
        stable_step HS.
Qed.

Lemma sendMessage_preserves (I : World -> Prop) (HS : stable I)
    (content : jsstring) (fileUrl fileName : option jsstring) :
  task_preserves I (sendMessage content fileUrl fileName).
Proof.
  intros w Hw. unfold sendMessage.
  destruct (string_falsy (trim content) && opt_falsy fileUrl).
  - simpl. split; [exact Hw|exact Logic.I].
  - destruct (currentSessionId w) as [sid|].
    + destruct (string_falsy sid) eqn:E.
      * apply sendMessage_lazy_preserves; assumption.
      * apply sendMessage_to_preserves; assumption.
    + apply sendMessage_lazy_preserves; assumption.
Qed.

Lemma createSession_preserves (I : World -> Prop) (HS : stable I) :
  task_preserves I (fun w => let (w', p) := createSession w in (w', void p)).
Proof.
  intros w Hw. unfold createSession, apiClient_session. simpl. split.
  - fold create_request. stable_step HS.
  - intros res w' Hw'. destruct res as [error|data]; simpl;
      (split; [|exact Logic.I]); unfold console_error; stable_step HS.
Qed.

Lemma useEffect_preserves (I : World -> Prop) (HS : stable I)
    (sessionId : option jsstring) :
  task_preserves I (useEffect_sessionId sessionId).
Proof.
  intros w Hw. unfold useEffect_sessionId.
  destruct sessionId as [sid|]; [|simpl; split; [exact Hw|exact Logic.I]].
  destruct (string_falsy sid) eqn:E; [simpl; split; [exact Hw|exact Logic.I]|].
  unfold loadSession, apiClient_session. split.
  - stable_step HS.
  - simpl. intros res w' Hw'.
    destruct res as [error|data]; (split; [|exact Logic.I]);
      unfold console_error; stable_step HS.
Qed.

Lemma onmessage_preserves (I : World -> Prop) (HS : stable I)
    (data : FrameData) (w : World) :
  I w -> I (fst (onmessage data w)).
Proof.
  intros Hw. rewrite onmessage_frame_payload.
  destruct (frame_payload data); stable_step HS.
Qed.

Lemma Forall_set_nth {A : Type} (P : A -> Prop) (x : A) (l : list A) :
  forall n, P x -> Forall P l -> Forall P (set_nth n x l).
Proof.
  induction l as [|y l IH]; intros n Hx Hl; simpl.
  - destruct n; constructor.
  - inversion Hl as [|? ? Hy Hl']; subst.
    destruct n; constructor; auto.
Qed.

Lemma Forall_nth_error {A : Type} (P : A -> Prop) (l : list A) :
  forall n x, Forall P l -> nth_error l n = Some x -> P x.
Proof.
  intros n x Hl Hn. rewrite Forall_forall in Hl. apply Hl.
  apply nth_error_In with n. exact Hn.
Qed.

Lemma step_keeps (I : World -> Prop) (HS : stable I) (l : Loop) (e : Event) :
  loop_ok I l -> loop_ok I (step l e).
Proof.
  intros [Hw Hp]. unfold loop_ok.
  assert (Hstart : forall t : Task unit, task_preserves I t -> 
            I (world (start t l)) /\ Forall (preserves I) (pending (start t l))).
  { intros t Ht. unfold start. specialize (Ht (world l) Hw).
    destruct (t (world l)) as [w' p]. destruct Ht as [Hw' Hp']. simpl.
    split; [exact Hw'|]. apply Forall_app. split; [exact Hp|].
    constructor; [exact Hp'|constructor]. }
  destruct e as [content fileUrl fileName| |sessionId| |data|n res|n res|now iso];
    cbv beta iota delta [step].
  - apply Hstart. apply sendMessage_preserves. exact HS.
  - apply Hstart. apply createSession_preserves. exact HS.
  - apply Hstart. apply useEffect_preserves. exact HS.
  - split; [|exact Hp]. stable_step HS.
  - split; [|exact Hp]. apply onmessage_preserves; assumption.
  - destruct (nth_error (pending l) n) as [[a|req k|req k]|] eqn:En;
      try (split; assumption).
    pose proof (Forall_nth_error _ _ _ _ Hp En) as Hk. simpl in Hk.
    specialize (Hk res (world l) Hw). unfold resume.
    destruct (k res (world l)) as [w' p']. destruct Hk as [Hw' Hp']. simpl.
    split; [exact Hw'|]. apply Forall_set_nth; assumption.
  - destruct (nth_error (pending l) n) as [[a|req k|req k]|] eqn:En;
      try (split; assumption).
    pose proof (Forall_nth_error _ _ _ _ Hp En) as Hk. simpl in Hk.
    specialize (Hk res (world l) Hw). unfold resume.
    destruct (k res (world l)) as [w' p']. destruct Hk as [Hw' Hp']. simpl.
    split; [exact Hw'|]. apply Forall_set_nth; assumption.
  - split; [|exact Hp]. stable_step HS.
Qed.

(** Whatever is stable under the state changes the hook is made of holds
    along every sequence of events. *)
Lemma steps_keep (I : World -> Prop) (HS : stable I) (events : list Event) :
  forall l, loop_ok I l -> loop_ok I (steps events l).
Proof.
  unfold steps. induction events as [|e events IH]; intros l Hl; simpl.
  - exact Hl.
  - apply IH. apply step_keeps; assumption.
Qed.

Lemma mount_ok (I : World -> Prop) (sessionId : option jsstring)
    (now : Z) (iso : jsstring) :
  I (mounted sessionId now iso) -> loop_ok I (mount sessionId now iso).
Proof. intros H. split; [exact H|constructor]. Qed.

(** ** Sockets *)

Lemma jsstring_eqb_refl (s : jsstring) : jsstring_eqb s s = true.
Proof. unfold jsstring_eqb. destruct (list_eq_dec N.eq_dec s s); congruence. Qed.

Lemma open_sockets_snoc (es : list Effect) (e : Effect) :
  open_sockets (es ++ [e]) = socket_step (open_sockets es) e.
Proof. unfold open_sockets. rewrite fold_left_app. reflexivity. Qed.

(** Closing the socket of the reference leaves no socket open. *)
Lemma close_ref_socket (w : World) (u : jsstring) :
  sockets_ok w -> wsRef w = Some u ->
  close_socket u (open_sockets (effects w)) = [].
Proof.
  intros [H|(u' & Hr & H)] E; rewrite H; [reflexivity|].
  assert (u' = u) by congruence. subst u'.
  simpl. rewrite jsstring_eqb_refl. reflexivity.
Qed.

Lemma sockets_ok_stable : stable sockets_ok.
Proof.
  constructor.
  - intros f w H. exact H.
  - intros b w H. exact H.
  - intros sid w H. exact H.
  - intros req w _ H. unfold sockets_ok. simpl.
    rewrite open_sockets_snoc. exact H.
  - intros text error w H. unfold sockets_ok. simpl.
    rewrite open_sockets_snoc. exact H.
  - intros sid w H. right. exists (lit "ws://localhost:8000/ws/" ++ sid).
    unfold connectWebSocket.
    destruct (wsRef w) as [old|] eqn:E; simpl; split; try reflexivity.
    + rewrite !open_sockets_snoc. simpl.
      rewrite (close_ref_socket w old H E). reflexivity.
    + rewrite open_sockets_snoc. simpl.
      destruct H as [H|(u & Hr & _)]; [rewrite H; reflexivity|congruence].
  - intros w H. unfold useEffect_cleanup.
    destruct (wsRef w) as [ws|] eqn:E; [|exact H].
    left. simpl. rewrite open_sockets_snoc. simpl.
    apply (close_ref_socket w ws H E).
  - intros now iso w H. exact H.
Qed.

(** X9: from the mounting of the hook on, whatever the sequence of calls,
    effect runs, cleanups, frames, settled requests and clock ticks, at
    most one socket is open, and an open socket is the one the hook's
    reference holds: every socket made earlier has been closed, by a
    [close()] on a socket of its own url. *)
Theorem at_most_one_open_socket
    (sessionId : option jsstring) (now : Z) (iso : jsstring) (events : list Event) :
  let w := world (steps events (mount sessionId now iso)) in
  (List.length (open_sockets (effects w)) <= 1)%nat
  /\ (forall url, In url (open_sockets (effects w)) -> wsRef w = Some url).
Proof.
  intros w.
  assert (H : sockets_ok w).
  { apply (steps_keep sockets_ok sockets_ok_stable events).
    apply mount_ok. left. reflexivity. }
  destruct H as [H|(u & Hr & H)]; rewrite H; simpl.
  - split; [lia|]. intros url [].
  - split; [lia|]. intros url [<-|[]]. exact Hr.
Qed.

(** A [close()] on a socket of another url closes none of this url. *)
Example close_is_by_url :
  open_sockets [ WsOpen (lit "ws://a"); WsClose (lit "ws://b"); WsOpen (lit "ws://c") ]
  = [ lit "ws://c"; lit "ws://a" ]
  /\ open_sockets [ WsOpen (lit "ws://a"); WsClose (lit "ws://a"); WsOpen (lit "ws://c") ]
     = [ lit "ws://c" ].
Proof. vm_compute. split; reflexivity. Qed.

Example sockets_example :
  let l := steps [ RunEffect (Some (lit "s1")); RunCleanup;
                   RunEffect (Some (lit "s9")) ] (mount (Some (lit "s1")) 0 iso0) in
  filter (fun e => match e with WsOpen _ | WsClose _ => true | _ => false end)
         (effects (world l))
  = [ WsOpen (lit "ws://localhost:8000/ws/s1");
      WsClose (lit "ws://localhost:8000/ws/s1");
      WsClose (lit "ws://localhost:8000/ws/s1");
      WsOpen (lit "ws://localhost:8000/ws/s9") ]
  /\ open_sockets (effects (world l)) = [lit "ws://localhost:8000/ws/s9"].
Proof. vm_compute. split; reflexivity. Qed.

(** ** Requests *)

Lemma requests_ok_stable : stable requests_ok.
Proof.
  assert (Hother : forall e w, requests [e] = [] ->
                   requests_ok w -> requests_ok (emit e w)).
  { intros e w He H. unfold requests_ok in *. simpl.
    rewrite requests_app, He, app_nil_r. exact H. }
  constructor; unfold requests_ok in *.
  - intros f w H. exact H.
  - intros b w H. exact H.
  - intros sid w H. exact H.
  - intros req w Hreq H. simpl. rewrite requests_app. apply Forall_app.
    split; [exact H|]. constructor; [exact Hreq|constructor].
  - intros text error w H. apply Hother; [reflexivity|exact H].
  - intros sid w H. unfold connectWebSocket.
    destruct (wsRef w) as [old|]; simpl; rewrite !requests_app; simpl;
      rewrite !app_nil_r; exact H.
  - intros w H. unfold useEffect_cleanup.
    destruct (wsRef w) as [ws|]; [|exact H].
    apply Hother; [reflexivity|exact H].
  - intros now iso w H. exact H.
Qed.

Lemma hook_request_shape (req : Request) :
  hook_request req ->
  match req with
  | GET url => exists sid, sid <> [] /\ url = lit "/sessions/" ++ sid
  | POST url (SessionBody title) =>
      url = endpoints.sessions /\ title = lit "New Chat"
  | POST url (MessageBody _ sender) =>
      sender = user /\ exists sid, sid <> [] /\ url = endpoints.messages sid
  | POST url (RagBody _ sender file_url _) =>
      sender = user /\ file_url <> []
      /\ exists sid, sid <> [] /\ url = endpoints.messagesWithRag sid
  end.
Proof.
  assert (Hne : forall s : jsstring, string_falsy s = false -> s <> [])
    by (intros s H ->; discriminate H).
  intros [sid Hsid| |sid content fileUrl fileName Hsid].
  - exists sid. split; [apply Hne; exact Hsid|reflexivity].
  - split; reflexivity.
  - unfold creation_request. destruct fileUrl as [url|].
    + destruct (string_falsy url) eqn:E.
      * split; [reflexivity|]. exists sid. split; [apply Hne; exact Hsid|reflexivity].
      * split; [reflexivity|]. split; [apply Hne; exact E|].
        exists sid. split; [apply Hne; exact Hsid|reflexivity].
    + split; [reflexivity|]. exists sid. split; [apply Hne; exact Hsid|reflexivity].
Qed.

(** X10: from the mounting of the hook on, whatever happens, the only
    requests the hook ever issues are the load of a session with a
    non-empty id, the creation of a session titled [New Chat], and the
    creation of a message whose sender is [user], addressed to the plain
    or the attachment-aware endpoint of a non-empty session id, the
    latter never without a file url. *)
Theorem hook_issues_only_its_requests
    (sessionId : option jsstring) (now : Z) (iso : jsstring) (events : list Event)
    (req : Request) :
  In req (requests (effects (world (steps events (mount sessionId now iso))))) ->
  match req with
  | GET url => exists sid, sid <> [] /\ url = lit "/sessions/" ++ sid
  | POST url (SessionBody title) =>
      url = endpoints.sessions /\ title = lit "New Chat"
  | POST url (MessageBody _ sender) =>
      sender = user /\ exists sid, sid <> [] /\ url = endpoints.messages sid
  | POST url (RagBody _ sender file_url _) =>
      sender = user /\ file_url <> []
      /\ exists sid, sid <> [] /\ url = endpoints.messagesWithRag sid
  end.
Proof.
  intros Hin. apply hook_request_shape.
  assert (H : requests_ok (world (steps events (mount sessionId now iso)))).
  { apply (steps_keep requests_ok requests_ok_stable events).
    apply mount_ok. constructor. }
  unfold requests_ok in H. rewrite Forall_forall in H. apply H. exact Hin.
Qed.

Lemma hook_issues_only_its_requests_witness :
  exists sid, sid <> [] /\ lit "/sessions/s1" = lit "/sessions/" ++ sid.
Proof.
  apply (hook_issues_only_its_requests (Some (lit "s1")) 0 iso0
           [RunEffect (Some (lit "s1"))] (GET (lit "/sessions/s1"))).
  left. reflexivity.
Defined.

(** ** Session switches and lazy creation *)

Lemma connectWebSocket_ref (sid : jsstring) (w : World) :
  wsRef (connectWebSocket sid w) = Some (ws_url sid).
Proof. unfold connectWebSocket. destruct (wsRef w); reflexivity. Qed.

Lemma useEffect_cleanup_state (w : World) :
  messages (useEffect_cleanup w) = messages w
  /\ isLoading (useEffect_cleanup w) = isLoading w
  /\ currentSessionId (useEffect_cleanup w) = currentSessionId w
  /\ wsRef (useEffect_cleanup w) = wsRef w
  /\ requests (effects (useEffect_cleanup w)) = requests (effects w).
Proof.
  unfold useEffect_cleanup. destruct (wsRef w) as [ws|] eqn:E; simpl;
    rewrite ?requests_app, ?E; simpl; rewrite ?app_nil_r; repeat split.
Qed.

Lemma run_useEffect_rejected (b : Backend) (sid : jsstring) (w : World)
    (error : Error) :
  string_falsy sid = false ->
  session_reply b (GET (lit "/sessions/" ++ sid)) = Rejected error ->
  run b (useEffect_sessionId (Some sid)) w
  = (console_error "Failed to load session" error
       (connectWebSocket sid (emit (Http (GET (lit "/sessions/" ++ sid))) w)), tt).
Proof.
  intros Hsid Hrej. unfold run, useEffect_sessionId. rewrite Hsid.
  unfold loadSession, apiClient_session. simpl. simpl in Hrej. rewrite Hrej.
  reflexivity.
Qed.

(** X11: when the view is switched to another session and the load of
    that session is rejected, the socket is bound to the new session
    while the log and the bound session id stay those of the old one:
    the next send posts its message to the old session. *)
Theorem failed_switch_splits_socket_and_session
    (b : Backend) (w : World) (s1 s2 : jsstring) (error : Error)
    (content : jsstring) (fileUrl fileName : option jsstring) :
  currentSessionId w = Some s1 ->
  string_falsy s1 = false ->
  string_falsy s2 = false ->
  session_reply b (GET (lit "/sessions/" ++ s2)) = Rejected error ->
  sendable content fileUrl = true ->
  let w' := fst (run b (useEffect_sessionId (Some s2)) (useEffect_cleanup w)) in
  wsRef w' = Some (ws_url s2)
  /\ currentSessionId w' = Some s1
  /\ messages w' = messages w
  /\ creation_requests
       (effects (fst (run b (sendMessage content fileUrl fileName) w')))
     = creation_requests (effects w) ++ [creation_request s1 content fileUrl fileName].
Proof.
  intros Hs1 Hne1 Hne2 Hrej Hs w'.
  destruct (useEffect_cleanup_state w) as (Hm & _ & Hc & _ & Hr).
  set (w0 := emit (Http (GET (lit "/sessions/" ++ s2))) (useEffect_cleanup w)).
  assert (E : w' = console_error "Failed to load session" error
                     (connectWebSocket s2 w0)).
  { subst w' w0. rewrite (run_useEffect_rejected b s2 _ error Hne2 Hrej). reflexivity. }
  destruct (connectWebSocket_state s2 w0) as (Cm & _ & Cc & _ & _ & Cr).
  assert (Hc' : currentSessionId w' = Some s1).
  { rewrite E. unfold console_error.
    change (currentSessionId (connectWebSocket s2 w0) = Some s1).
    rewrite Cc. subst w0. exact (eq_trans Hc Hs1). }
  assert (Hr' : creation_requests (effects w') = creation_requests (effects w)).
  { rewrite E. unfold console_error.
    change (creation_requests (effects (connectWebSocket s2 w0) ++ [ConsoleError (lit "Failed to load session") error])
            = creation_requests (effects w)).
    rewrite creation_requests_app, Cr. subst w0.
    change (creation_requests (effects (useEffect_cleanup w) ++ [Http (GET (lit "/sessions/" ++ s2))]) ++ [] = creation_requests (effects w)).
    rewrite creation_requests_app. simpl. rewrite !app_nil_r.
    unfold creation_requests. rewrite Hr. reflexivity. }
  split; [|split; [exact Hc'|split]].
  - rewrite E. unfold console_error.
    change (wsRef (connectWebSocket s2 w0) = Some (ws_url s2)).
    apply connectWebSocket_ref.
  - rewrite E. unfold console_error.
    change (messages (connectWebSocket s2 w0) = messages w).
    rewrite Cm. subst w0. exact Hm.
  - assert (Hfor : session_for b w' = Some s1).
    { unfold session_for. rewrite Hc'. simpl. rewrite Hne1. reflexivity. }
    destruct (run_sendMessage_final b content fileUrl fileName w' s1 Hs Hfor)
      as (_ & _ & _ & Hcr & _).
    rewrite Hcr, Hr'. reflexivity.
Qed.

Lemma failed_switch_splits_socket_and_session_witness :
  wsRef (fst (run backend_down (useEffect_sessionId (Some (lit "s9")))
                (useEffect_cleanup world_abc)))
  = Some (ws_url (lit "s9"))
  /\ currentSessionId (fst (run backend_down (useEffect_sessionId (Some (lit "s9")))
                              (useEffect_cleanup world_abc)))
     = Some (lit "s1").
Proof.
  destruct (failed_switch_splits_socket_and_session backend_down world_abc
              (lit "s1") (lit "s9") (lit "Network Error") (lit "hi") None None
              eq_refl eq_refl eq_refl eq_refl eq_refl) as (H1 & H2 & _).
  split; assumption.
Defined.

(** A session load that succeeds installs the server's list as the log,
    whatever the log holds when the response arrives, and binds the
    session id that was asked for. *)
Lemma load_replaces_log_wholesale
    (sid : jsstring) (w : World) (data : ChatSession.t) :
  exists k,
    snd (loadSession sid w) = AwaitSession (GET (lit "/sessions/" ++ sid)) k
    /\ forall w_late,
         messages (fst (k (Fulfilled data) w_late)) = ChatSession.messages data
         /\ currentSessionId (fst (k (Fulfilled data) w_late)) = Some sid
         /\ snd (k (Fulfilled data) w_late) = Settled tt
         /\ (forall content fileUrl fileName entry,
               let w_sent := fst (sendMessage content fileUrl fileName w_late) in
               In entry (messages (fst (k (Fulfilled data) w_sent)))
               <-> In entry (ChatSession.messages data)).
Proof.
  eexists. split; [reflexivity|]. intros w_late.
  repeat split; intros H; exact H.
Qed.

Lemma run_sendMessage_created (b : Backend) (content : jsstring)
    (fileUrl fileName : option jsstring) (w : World) (data : ChatSession.t) :
  sendable content fileUrl = true ->
  opt_falsy (currentSessionId w) = true ->
  session_reply b create_request = Fulfilled data ->
  run b (sendMessage content fileUrl fileName) w
  = let sid := ChatSession.id data in
    let w2 := connectWebSocket sid
                (setCurrentSessionId (Some sid) (emit (Http create_request) w)) in
    if string_falsy sid then (w2, tt)
    else run b (sendMessage_to sid content fileUrl fileName) w2.
Proof.
  intros Hs Hnone Hrep. unfold sendable in Hs. apply negb_true_iff in Hs.
  assert (E : run b (sendMessage content fileUrl fileName) w
              = run b (sendMessage_lazy content fileUrl fileName) w).
  { unfold run at 1. unfold sendMessage. rewrite Hs.
    destruct (currentSessionId w) as [s|]; simpl in *; [|reflexivity].
    rewrite Hnone. reflexivity. }
  rewrite E, run_sendMessage_lazy. cbv zeta. rewrite Hrep. reflexivity.
Qed.

(** X12: a send on a view without a session, answered by a session with
    a non-empty id, binds that id, opens the socket of that session
    (closing the one the reference held) and only then posts the
    message, to that same session; its requests are the session
    creation and the message creation, in this order, and the
    optimistic entry is at the tail of the log. *)
Theorem lazy_send_binds_the_created_session
    (b : Backend) (content : jsstring) (fileUrl fileName : option jsstring)
    (w : World) (data : ChatSession.t) :
  sendable content fileUrl = true ->
  opt_falsy (currentSessionId w) = true ->
  session_reply b create_request = Fulfilled data ->
  string_falsy (ChatSession.id data) = false ->
  let sid := ChatSession.id data in
  let req := creation_request sid content fileUrl fileName in
  let w' := fst (run b (sendMessage content fileUrl fileName) w) in
  currentSessionId w' = Some sid
  /\ wsRef w' = Some (ws_url sid)
  /\ messages w'
     = messages w ++ [tempMsg (Date_now w) (Date_toISOString w) content fileUrl fileName]
  /\ effects w'
     = effects w ++ Http create_request ::
       match wsRef w with Some old => [WsClose old] | None => [] end
       ++ WsOpen (ws_url sid) :: Http req ::
       match plain_reply b req with
       | Fulfilled _ => []
       | Rejected error => [ConsoleError (lit "Failed to send message") error]
       end.
Proof.
  intros Hs Hnone Hrep Hid sid req w'. subst w'.
  rewrite (run_sendMessage_created b content fileUrl fileName w data Hs Hnone Hrep).
  cbv zeta. rewrite Hid. rewrite run_sendMessage_to. cbv zeta.
  fold sid. fold req. unfold connectWebSocket, ws_url. simpl.
  destruct (wsRef w) as [old|]; destruct (plain_reply b req) as [error|[]]; simpl;
    rewrite <- ?app_assoc; simpl; repeat split.
Qed.

Lemma lazy_send_binds_the_created_session_witness :
  currentSessionId (fst (run backend_up (sendMessage (lit "Hello") None None) world0))
  = Some (lit "s2").
Proof.
  exact (proj1 (lazy_send_binds_the_created_session backend_up (lit "Hello")
                  None None world0 new_session eq_refl eq_refl eq_refl eq_refl)).
Defined.

(** X13: if the backend answers the session creation with a session
    whose id is the empty string, that id is bound and a socket is
    opened to the url that ends in [/ws/], but the send stops there:
    no entry, no busy flag, no message request. The empty id counts as
    no session, so the next send asks for a session again. *)
Theorem empty_session_id_abandons_send
    (b : Backend) (content c2 : jsstring) (fileUrl fileName fu2 fn2 : option jsstring)
    (w : World) (data : ChatSession.t) :
  sendable content fileUrl = true ->
  sendable c2 fu2 = true ->
  opt_falsy (currentSessionId w) = true ->
  session_reply b create_request = Fulfilled data ->
  ChatSession.id data = [] ->
  let w' := fst (run b (sendMessage content fileUrl fileName) w) in
  messages w' = messages w
  /\ isLoading w' = isLoading w
  /\ currentSessionId w' = Some []
  /\ wsRef w' = Some (lit "ws://localhost:8000/ws/")
  /\ requests (effects w') = requests (effects w) ++ [create_request]
  /\ requests (effects (fst (run b (sendMessage c2 fu2 fn2) w')))
     = requests (effects w') ++ [create_request].
Proof.
  intros Hs Hs2 Hnone Hrep Hid w'.
  assert (E : forall c fu fn w0, sendable c fu = true ->
              opt_falsy (currentSessionId w0) = true ->
              run b (sendMessage c fu fn) w0
              = (connectWebSocket []
                   (setCurrentSessionId (Some []) (emit (Http create_request) w0)), tt)).
  { intros c fu fn w0 H1 H2.
    rewrite (run_sendMessage_created b c fu fn w0 data H1 H2 Hrep).
    cbv zeta. rewrite Hid. reflexivity. }
  assert (R : forall w0, requests (effects (connectWebSocket []
                (setCurrentSessionId (Some []) (emit (Http create_request) w0))))
              = requests (effects w0) ++ [create_request]).
  { intros w0. unfold connectWebSocket. simpl. destruct (wsRef w0); simpl;
      rewrite !requests_app; simpl; rewrite ?app_nil_r; reflexivity. }
  subst w'. rewrite (E content fileUrl fileName w Hs Hnone). cbn [fst].
  destruct (connectWebSocket_state []
              (setCurrentSessionId (Some []) (emit (Http create_request) w)))
    as (Cm & Cl & Cc & _).
  rewrite Cm, Cl, Cc, connectWebSocket_ref, R.
  split; [reflexivity|]. split; [reflexivity|]. split; [reflexivity|].
  split; [reflexivity|]. split; [reflexivity|].
  rewrite E; [|exact Hs2|rewrite Cc; reflexivity].
  cbn [fst]. rewrite R, R. reflexivity.
Qed.

Lemma empty_session_id_abandons_send_witness :
  messages (fst (run backend_empty_id (sendMessage (lit "hi") None None) world0)) = [].
Proof.
  exact (proj1 (empty_session_id_abandons_send backend_empty_id (lit "hi") (lit "again")
                  None None None None world0
                  {| ChatSession.id := []; ChatSession.title := lit "New Chat";
                     ChatSession.created_at := iso0; ChatSession.messages := [] |}
                  eq_refl eq_refl eq_refl eq_refl eq_refl)).
Defined.

(** ** The busy flag *)

Lemma existsb_set_nth {A : Type} (f : A -> bool) (x : A) (l : list A) :
  forall n y, nth_error l n = Some y -> f y = false ->
  existsb f (set_nth n x l) = f x || existsb f l.
Proof.
  induction l as [|z l IH]; intros n y Hn Hy.
  - destruct n; discriminate Hn.
  - destruct n as [|n]; simpl in *.
    + injection Hn as ->. rewrite Hy. simpl. reflexivity.
    + rewrite (IH n y Hn Hy). destruct (f x), (f z); reflexivity.
Qed.

Lemma sendMessage_to_flag (sid content : jsstring)
    (fileUrl fileName : option jsstring) (w : World) :
  isLoading (fst (sendMessage_to sid content fileUrl fileName w)) = true
  /\ exists req k,
       snd (sendMessage_to sid content fileUrl fileName w) = AwaitReply req k
       /\ reply_clears k.
Proof.
  split; [reflexivity|]. do 2 eexists. split; [reflexivity|].
  intros [error|[]] w'; split; reflexivity.
Qed.

Lemma sendMessage_lazy_flag (content : jsstring)
    (fileUrl fileName : option jsstring) (w : World) :
  isLoading (fst (sendMessage_lazy content fileUrl fileName w)) = isLoading w
  /\ flag_shape (snd (sendMessage_lazy content fileUrl fileName w))
  /\ awaiting_reply (snd (sendMessage_lazy content fileUrl fileName w)) = false.
Proof.
  split; [reflexivity|]. split; [|reflexivity].
  unfold sendMessage_lazy, bind, createSession, apiClient_session. simpl.
  intros [error|data] w'.
  - left. split; reflexivity.
  - change (let r := (if string_falsy (ChatSession.id data) then ret tt
                      else sendMessage_to (ChatSession.id data) content fileUrl fileName)
                       (connectWebSocket (ChatSession.id data)
                          (setCurrentSessionId (Some (ChatSession.id data)) w')) in
            (isLoading (fst r) = isLoading w' /\ snd r = Settled tt)
            \/ (isLoading (fst r) = true
                /\ exists req k', snd r = AwaitReply req k' /\ reply_clears k')).
    cbv zeta. destruct (string_falsy (ChatSession.id data)).
    + left. split; [|reflexivity]. simpl.
      apply (connectWebSocket_state (ChatSession.id data)
               (setCurrentSessionId (Some (ChatSession.id data)) w')).
    + right. apply sendMessage_to_flag.
Qed.

Lemma start_flag (t : Task unit) (l : Loop) :
  flag_ok l ->
  (forall w,
      (isLoading (fst (t w)) = isLoading w
       /\ flag_shape (snd (t w)) /\ awaiting_reply (snd (t w)) = false)
      \/ (exists req k, snd (t w) = AwaitReply req k /\ reply_clears k)) ->
  flag_ok (start t l).
Proof.
  intros [Hp Hf] Ht. unfold flag_ok, start. specialize (Ht (world l)).
  destruct (t (world l)) as [w' p]. simpl in *.
  rewrite existsb_app. simpl. rewrite orb_false_r.
  destruct Ht as [(Hl & Hsh & Ha)|(req & k & -> & Hk)].
  - split.
    + apply Forall_app. split; [exact Hp|]. constructor; [exact Hsh|constructor].
    + rewrite Hl, Ha, orb_false_r. exact Hf.
  - split.
    + apply Forall_app. split; [exact Hp|]. constructor; [exact Hk|constructor].
    + intros _. apply orb_true_r.
Qed.

Lemma step_flag (l : Loop) (e : Event) : flag_ok l -> flag_ok (step l e).
Proof.
  intros Hl.
  destruct e as [content fileUrl fileName| |sessionId| |data|n res|n res|now iso];
    cbv beta iota delta [step].
  - apply start_flag; [exact Hl|]. intros w. unfold sendMessage.
    destruct (string_falsy (trim content) && opt_falsy fileUrl).
    + left. repeat split.
    + destruct (currentSessionId w) as [sid|].
      * destruct (string_falsy sid).
        -- left. apply sendMessage_lazy_flag.
        -- right. apply sendMessage_to_flag.
      * left. apply sendMessage_lazy_flag.
  - apply start_flag; [exact Hl|]. intros w. left.
    unfold createSession, apiClient_session. simpl.
    split; [reflexivity|]. split; [|reflexivity].
    intros [error|data] w'; left; split; try reflexivity.
    simpl. apply (connectWebSocket_state (ChatSession.id data)
                    (setCurrentSessionId (Some (ChatSession.id data)) w')).
  - apply start_flag; [exact Hl|]. intros w. left. unfold useEffect_sessionId.
    destruct sessionId as [sid|]; [|repeat split].
    destruct (string_falsy sid); [repeat split|].
    unfold loadSession, apiClient_session. simpl.
    split; [apply (connectWebSocket_state sid (emit _ w))|].
    split; [|reflexivity].
    intros [error|data] w'; left; split; reflexivity.
  - destruct Hl as [Hp Hf]. split; [exact Hp|]. simpl.
    destruct (useEffect_cleanup_state (world l)) as (_ & -> & _). exact Hf.
  - destruct Hl as [Hp Hf]. split; [exact Hp|]. simpl.
    rewrite onmessage_frame_payload. destruct (frame_payload data); exact Hf.
  - destruct (nth_error (pending l) n) as [[a|req k|req k]|] eqn:En; try exact Hl.
    destruct Hl as [Hp Hf].
    pose proof (Forall_nth_error _ _ _ _ Hp En) as Hk. simpl in Hk.
    specialize (Hk res (world l)). unfold flag_ok, resume. simpl.
    rewrite (existsb_set_nth _ _ _ _ _ En eq_refl).
    destruct Hk as [(Hl' & Hs')|(Hl' & req' & k' & Hs' & Hk')]; rewrite Hs'.
    + split; [apply Forall_set_nth; [exact Logic.I|exact Hp]|].
      rewrite Hl'. simpl. exact Hf.
    + split; [apply Forall_set_nth; [exact Hk'|exact Hp]|]. reflexivity.
  - destruct (nth_error (pending l) n) as [[a|req k|req k]|] eqn:En; try exact Hl.
    destruct Hl as [Hp Hf].
    pose proof (Forall_nth_error _ _ _ _ Hp En) as Hk. simpl in Hk.
    destruct (Hk res (world l)) as [Hl' Hs']. unfold flag_ok, resume. simpl.
    rewrite Hs', Hl'. split; [apply Forall_set_nth; [exact Logic.I|exact Hp]|].
    discriminate.
  - exact Hl.
Qed.

(** X14: the busy flag is never left on. From the mounting of the hook
    on, whatever the sequence of calls, effect runs, cleanups, frames,
    settled requests and clock ticks, the flag is set only while a
    message creation request is in flight. *)
Theorem busy_flag_needs_a_pending_request
    (sessionId : option jsstring) (now : Z) (iso : jsstring) (events : list Event) :
  let l := steps events (mount sessionId now iso) in
  isLoading (world l) = true ->
  existsb awaiting_reply (pending l) = true.
Proof.
  assert (H : forall l0, flag_ok l0 -> flag_ok (steps events l0)).
  { unfold steps. induction events as [|e events IH]; intros l0 H0; simpl.
    - exact H0.
    - apply IH. apply step_flag. exact H0. }
  intros l. apply (H (mount sessionId now iso)).
  split; [constructor|]. discriminate.
Qed.

Lemma busy_flag_needs_a_pending_request_witness :
  existsb awaiting_reply
    (pending (steps [CallSendMessage (lit "hi") None None]
                (mount (Some (lit "s1")) 0 iso0)))
  = true.
Proof.
  apply (busy_flag_needs_a_pending_request (Some (lit "s1")) 0 iso0
           [CallSendMessage (lit "hi") None None]).
  reflexivity.
Defined.

Example busy_flag_example :
  let l := steps [ CallSendMessage (lit "hi") None None;
                   SettleReply 0 (Rejected (lit "Network Error")) ]
                 (mount (Some (lit "s1")) 0 iso0) in
  isLoading (world l) = false /\ map awaiting_reply (pending l) = [false].
Proof. vm_compute. split; reflexivity. Qed.

(** ** The callers *)

Lemma or_undefined_falsy (s : jsstring) :
  opt_falsy (ChatInterface.or_undefined s) = string_falsy s.
Proof.
  unfold ChatInterface.or_undefined.
  destruct (string_falsy s) eqn:E; simpl; [reflexivity|exact E].
Qed.

(** X15: [handleSubmit] returns at once on a blank form, and otherwise
    its test agrees with that of [sendMessage], which is then called
    with the typed text, the url if there is one, and never a file
    name. Once the send is over the form is cleared whatever became of
    it: when the session creation failed the text is neither in the
    log, nor in a request, nor in the input any more. *)
Theorem handleSubmit_clears_the_form
    (b : Backend) (s : ChatInterface.state) (w : World) :
  let blank := whitespace_only (ChatInterface.input s)
               && string_falsy (ChatInterface.fileUrl s) in
  let content := ChatInterface.input s in
  let fileUrl := ChatInterface.or_undefined (ChatInterface.fileUrl s) in
  let r := ChatInterface.handleSubmit b s w in
  (blank = true -> r = (s, w))
  /\ (blank = false ->
      sendable content fileUrl = true
      /\ fst r = {| ChatInterface.input := []; ChatInterface.fileUrl := [] |}
      /\ snd r = fst (run b (sendMessage content fileUrl None) w)
      /\ (session_for b w = None ->
          messages (snd r) = messages w
          /\ creation_requests (effects (snd r)) = creation_requests (effects w))
      /\ (forall sid, session_for b w = Some sid ->
          creation_requests (effects (snd r))
          = creation_requests (effects w)
            ++ [creation_request sid content fileUrl None])).
Proof.
  intros blank content fileUrl r. subst blank r.
  unfold ChatInterface.handleSubmit. rewrite trim_falsy_iff.
  destruct (whitespace_only (ChatInterface.input s)
            && string_falsy (ChatInterface.fileUrl s)) eqn:B.
  - split; [reflexivity|discriminate].
  - split; [discriminate|]. intros _.
    assert (Hs : sendable content fileUrl = true).
    { unfold sendable. subst content fileUrl.
      rewrite trim_falsy_iff, or_undefined_falsy, B. reflexivity. }
    fold content. fold fileUrl.
    destruct (run b (sendMessage content fileUrl None) w) as [w' []] eqn:R.
    simpl. split; [exact Hs|]. split; [reflexivity|]. split; [reflexivity|].
    assert (Hw' : w' = fst (run b (sendMessage content fileUrl None) w))
      by (rewrite R; reflexivity).
    split.
    + intros Hnone.
      rewrite (run_sendMessage_no_session b content fileUrl None w Hs Hnone) in Hw'.
      simpl in Hw'. subst w'.
      destruct (session_step_state b w) as (Hm & _ & _ & _ & Hc). split; assumption.
    + intros sid Hsid. subst w'.
      apply (run_sendMessage_final b content fileUrl None w sid Hs Hsid).
Qed.

Lemma handleSubmit_clears_the_form_witness :
  fst (ChatInterface.handleSubmit backend_down
         {| ChatInterface.input := lit "Hello"; ChatInterface.fileUrl := [] |} world0)
  = {| ChatInterface.input := []; ChatInterface.fileUrl := [] |}
  /\ messages
       (snd (ChatInterface.handleSubmit backend_down
               {| ChatInterface.input := lit "Hello"; ChatInterface.fileUrl := [] |}
               world0))
     = [].
Proof.
  destruct (proj2 (handleSubmit_clears_the_form backend_down
                     {| ChatInterface.input := lit "Hello";
                        ChatInterface.fileUrl := [] |} world0) eq_refl)
    as (_ & Hf & _ & Hnone & _).
  split; [exact Hf|]. apply (Hnone eq_refl).
Defined.

Lemma run_sendMessage_unfold (b : Backend) (content : jsstring)
    (fileUrl fileName : option jsstring) (w : World) :
  run b (sendMessage content fileUrl fileName) w
  = if sendable content fileUrl then
      match currentSessionId w with
      | Some sid =>
          if string_falsy sid then run b (sendMessage_lazy content fileUrl fileName) w
          else run b (sendMessage_to sid content fileUrl fileName) w
      | None => run b (sendMessage_lazy content fileUrl fileName) w
      end
    else (w, tt).
Proof.
  unfold sendable. unfold run at 1. unfold sendMessage.
  destruct (string_falsy (trim content) && opt_falsy fileUrl); simpl; [reflexivity|].
  destruct (currentSessionId w) as [sid|]; [|reflexivity].
  destruct (string_falsy sid); reflexivity.
Qed.

Lemma run_sendMessage_any_flag (b : Backend) (content : jsstring)
    (fileUrl fileName : option jsstring) (w : World) (flag : bool) :
  setIsLoading false
    (fst (run b (sendMessage content fileUrl fileName) (setIsLoading flag w)))
  = setIsLoading false (fst (run b (sendMessage content fileUrl fileName) w)).
Proof.
  rewrite !run_sendMessage_unfold.
  change (currentSessionId (setIsLoading flag w)) with (currentSessionId w).
  assert (Hto : forall sid w0,
            setIsLoading false
              (fst (run b (sendMessage_to sid content fileUrl fileName)
                      (setIsLoading flag w0)))
            = setIsLoading false
                (fst (run b (sendMessage_to sid content fileUrl fileName) w0))).
  { intros sid w0. rewrite !run_sendMessage_to. cbv zeta.
    destruct (plain_reply b (creation_request sid content fileUrl fileName));
      reflexivity. }
  assert (Hlazy : setIsLoading false
                    (fst (run b (sendMessage_lazy content fileUrl fileName)
                            (setIsLoading flag w)))
                  = setIsLoading false
                      (fst (run b (sendMessage_lazy content fileUrl fileName) w))).
  { rewrite !run_sendMessage_lazy. cbv zeta.
    destruct (session_reply b create_request) as [error|data]; [reflexivity|].
    assert (C : connectWebSocket (ChatSession.id data)
                  (setCurrentSessionId (Some (ChatSession.id data))
                     (emit (Http create_request) (setIsLoading flag w)))
                = setIsLoading flag
                    (connectWebSocket (ChatSession.id data)
                       (setCurrentSessionId (Some (ChatSession.id data))
                          (emit (Http create_request) w)))).
    { unfold connectWebSocket. simpl. destruct (wsRef w); reflexivity. }
    rewrite C. destruct (string_falsy (ChatSession.id data)); [reflexivity|].
    apply Hto. }
  destruct (sendable content fileUrl); [|reflexivity].
  destruct (currentSessionId w) as [sid|]; [|exact Hlazy].
  destruct (string_falsy sid); [exact Hlazy|apply Hto].
Qed.

(** X16: the submit button is disabled while the busy flag is set, but
    [handleSubmit], which the Enter key calls directly, never looks at
    the flag: called while a send is in flight it does what it does
    when none is, to the form, the log, the session id, the socket and
    the requests. *)
Theorem handleSubmit_ignores_the_busy_flag
    (b : Backend) (s : ChatInterface.state) (w : World) (flag : bool) :
  ChatInterface.submit_disabled true s = true
  /\ fst (ChatInterface.handleSubmit b s (setIsLoading flag w))
     = fst (ChatInterface.handleSubmit b s w)
  /\ setIsLoading false (snd (ChatInterface.handleSubmit b s (setIsLoading flag w)))
     = setIsLoading false (snd (ChatInterface.handleSubmit b s w)).
Proof.
  split; [reflexivity|]. unfold ChatInterface.handleSubmit.
  destruct (string_falsy (trim (ChatInterface.input s))
            && string_falsy (ChatInterface.fileUrl s)).
  - split; reflexivity.
  - pose proof (run_sendMessage_any_flag b (ChatInterface.input s)
                  (ChatInterface.or_undefined (ChatInterface.fileUrl s)) None w flag)
      as H.
    destruct (run b (sendMessage (ChatInterface.input s)
                       (ChatInterface.or_undefined (ChatInterface.fileUrl s)) None)
                (setIsLoading flag w)) as [w1 []].
    destruct (run b (sendMessage (ChatInterface.input s)
                       (ChatInterface.or_undefined (ChatInterface.fileUrl s)) None) w)
      as [w2 []].
    split; [reflexivity|exact H].
Qed.

(** X17: [New Chat] does not leave the session the hook is bound to.
    [onNewChat] clears the selected session and zeroes the totals; the
    hook, handed no session id, keeps its log and its bound session id
    (its cleanup only closes the socket); so the effect that reports
    the hook's session to [App] selects the old session again, after
    which it is at rest. The hook's effect then runs for that session
    once more: it opens the session's socket and asks for the session.
    When the load is answered, the log is the server's list and the
    effect on the log sets the totals to those of that list, so neither
    the cleared selection nor the zeroed totals last; when the load is
    rejected, the log and the bound session id stay as they are. *)
Theorem new_chat_is_undone_while_a_session_is_bound
    (a : App.state) (w : World) (sid : jsstring) :
  currentSessionId w = Some sid ->
  string_falsy sid = false ->
  let a1 := App.onNewChat a in
  let w1 := fst (useEffect_sessionId (App.sessionId a1) (useEffect_cleanup w)) in
  let a2 := ChatInterface.session_effect (currentSessionId w1) (App.sessionId a1) a1 in
  let started := useEffect_sessionId (App.sessionId a2) (useEffect_cleanup w1) in
  App.sessionId a1 = None
  /\ App.metrics a1 = zero_metrics
  /\ messages w1 = messages w
  /\ currentSessionId w1 = Some sid
  /\ App.sessionId a2 = Some sid
  /\ ChatInterface.session_effect (currentSessionId w1) (App.sessionId a2) a2 = a2
  /\ messages (fst started) = messages w
  /\ wsRef (fst started) = Some (ws_url sid)
  /\ exists k,
       snd started = AwaitSession (GET (lit "/sessions/" ++ sid)) k
       /\ (forall data w_late,
             let w2 := fst (k (Fulfilled data) w_late) in
             let a3 := ChatInterface.metrics_effect (messages w2) a2 in
             messages w2 = ChatSession.messages data
             /\ currentSessionId w2 = Some sid
             /\ App.metrics a3 = computeMetrics (ChatSession.messages data)
             /\ App.sessionId a3 = Some sid
             /\ ChatInterface.session_effect (currentSessionId w2) (App.sessionId a3) a3
                = a3)
       /\ (forall error w_late,
             let w2 := fst (k (Rejected error) w_late) in
             messages w2 = messages w_late
             /\ currentSessionId w2 = currentSessionId w_late).
Proof.
  intros Hsid Hne a1 w1 a2 started.
  destruct (useEffect_cleanup_state w) as (Hm & _ & Hc & _).
  assert (E1 : w1 = useEffect_cleanup w) by reflexivity.
  assert (Hc1 : currentSessionId w1 = Some sid) by (rewrite E1, Hc; exact Hsid).
  assert (E2 : a2 = App.setSessionId (Some sid) a1).
  { subst a2. unfold ChatInterface.session_effect. rewrite Hc1. simpl.
    rewrite Hne. reflexivity. }
  assert (R : forall a', App.sessionId a' = Some sid ->
              ChatInterface.session_effect (Some sid) (App.sessionId a') a' = a').
  { intros a' Ha. unfold ChatInterface.session_effect. rewrite Ha. simpl.
    rewrite jsstring_eqb_refl, andb_false_r. reflexivity. }
  assert (E3 : started
               = (connectWebSocket sid (fst (loadSession sid (useEffect_cleanup w1))),
                  snd (loadSession sid (useEffect_cleanup w1)))).
  { subst started. rewrite E2. simpl. rewrite Hne. reflexivity. }
  destruct (useEffect_cleanup_state w1) as (Hm1 & _ & _).
  split; [reflexivity|]. split; [reflexivity|].
  split; [rewrite E1; exact Hm|]. split; [exact Hc1|].
  split; [rewrite E2; reflexivity|].
  split; [rewrite Hc1; apply R; rewrite E2; reflexivity|].
  rewrite E3. cbn [fst snd].
  split.
  { destruct (connectWebSocket_state sid (fst (loadSession sid (useEffect_cleanup w1))))
      as (Hcm & _).
    rewrite Hcm. change (messages (useEffect_cleanup w1) = messages w).
    rewrite Hm1, E1. exact Hm. }
  split.
  { unfold connectWebSocket.
    destruct (wsRef (fst (loadSession sid (useEffect_cleanup w1)))); reflexivity. }
  eexists. split; [reflexivity|]. split.
  - intros data w_late. simpl. rewrite E2. simpl.
    repeat split. apply (R (App.setMetrics _ (App.setSessionId (Some sid) a1))).
    reflexivity.
  - intros error w_late. simpl. split; reflexivity.
Qed.

Lemma new_chat_is_undone_while_a_session_is_bound_witness :
  let a := {| App.sessionId := Some (lit "s1");
              App.metrics := computeMetrics abc_log |} in
  let a2 := ChatInterface.session_effect
              (currentSessionId
                 (fst (useEffect_sessionId None (useEffect_cleanup world_abc))))
              None (App.onNewChat a) in
  App.metrics (App.onNewChat a) = zero_metrics
  /\ App.sessionId a2 = Some (lit "s1").
Proof.
  intros a a2.
  destruct (new_chat_is_undone_while_a_session_is_bound a world_abc (lit "s1")
              eq_refl eq_refl) as (_ & H1 & _ & _ & H2 & _).
  split; [exact H1|exact H2].
Defined.

(** The whole round on the sample state: the old session is selected
    again, and its reload brings the totals back. *)
Example new_chat_round :
  let a := {| App.sessionId := Some (lit "s1");
              App.metrics := computeMetrics abc_log |} in
  let a1 := App.onNewChat a in
  let w1 := fst (useEffect_sessionId (App.sessionId a1) (useEffect_cleanup world_abc)) in
  let a2 := ChatInterface.session_effect (currentSessionId w1) (App.sessionId a1) a1 in
  let w2 := fst (run backend_stored
                   (useEffect_sessionId (App.sessionId a2)) (useEffect_cleanup w1)) in
  let a3 := ChatInterface.metrics_effect (messages w2) a2 in
  App.metrics a2 = zero_metrics
  /\ messages w2 = example_log
  /\ App.metrics a3 = computeMetrics example_log
  /\ PrimFloat.eqb (totalTokens (App.metrics a3)) 30 = true
  /\ App.sessionId a3 = Some (lit "s1").
Proof. vm_compute. repeat split; reflexivity. Qed.

Lemma number_and_nodes (v : option number) (element : number -> MetricsDisplay.Node)
    (n : MetricsDisplay.Node) :
  In n (MetricsDisplay.number_and v element) ->
  exists x, v = Some x /\ (n = element x \/ n = MetricsDisplay.NumberText x).
Proof.
  unfold MetricsDisplay.number_and. destruct v as [x|]; [|intros []].
  destruct (number_truthy x); intros [<-|[]]; exists x; auto.
Qed.

(** X18: [MetricsDisplay] renders nothing for a message without a token
    count and without evaluation scores, whatever its cost, carbon
    footprint and flag; the [Flagged] mark is shown exactly when the
    message is flagged and something is rendered at all; and for a
    message with scores whose cost is the number zero the cost badge is
    replaced by that bare number on the page. *)
Theorem metrics_display_edges (m : Message) :
  (token_count m = None -> evaluation_scores m = None ->
   MetricsDisplay.render m = None)
  /\ (forall nodes, MetricsDisplay.render m = Some nodes ->
      (In MetricsDisplay.Flagged nodes <-> is_flagged m = Some true))
  /\ (forall scores, evaluation_scores m = Some scores -> cost m = Some 0%float ->
      exists nodes,
        MetricsDisplay.render m = Some nodes
        /\ In (MetricsDisplay.NumberText 0) nodes
        /\ forall c, ~ In (MetricsDisplay.Cost c) nodes).
Proof.
  unfold MetricsDisplay.render. split; [|split].
  - intros -> ->. reflexivity.
  - intros nodes H.
    match type of H with (if ?g then _ else _) = _ => destruct g end;
      [discriminate H|].
    injection H as <-. rewrite !in_app_iff. split.
    + intros [H|[H|[H|[H|H]]]].
      * apply number_and_nodes in H. destruct H as (x & _ & [H|H]); discriminate H.
      * apply number_and_nodes in H. destruct H as (x & _ & [H|H]); discriminate H.
      * apply number_and_nodes in H. destruct H as (x & _ & [H|H]); discriminate H.
      * destruct (evaluation_scores m); simpl in H;
          [destruct H as [H|[H|[H|[]]]]; discriminate H|destruct H].
      * destruct (is_flagged m) as [[|]|]; [reflexivity|destruct H|destruct H].
    + intros ->. do 4 right. left. reflexivity.
  - intros scores Hsc Hcost. rewrite Hsc, Hcost. rewrite andb_false_r.
    eexists. split; [reflexivity|]. split.
    + rewrite !in_app_iff. right. left. left. reflexivity.
    + intros c. rewrite !in_app_iff. intros [H|[H|[H|[H|H]]]].
      * apply number_and_nodes in H. destruct H as (x & _ & [H|H]); discriminate H.
      * destruct H as [H|[]]. discriminate H.
      * apply number_and_nodes in H. destruct H as (x & _ & [H|H]); discriminate H.
      * destruct H as [H|[H|[H|[]]]]; discriminate H.
      * destruct (is_flagged m) as [[|]|]; simpl in H;
          [destruct H as [H|[]]; discriminate H|destruct H|destruct H].
Qed.

Example metrics_display_example :
  MetricsDisplay.render
    {| id := 5; content := lit "answer"; sender := assistant; timestamp := iso0;
       file_url := None; file_name := None;
       token_count := Some 12%float; cost := Some 0%float;
       carbon_footprint := None;
       evaluation_scores := Some {| faithfulness := 0.7; answer_relevancy := 0.9 |};
       is_flagged := Some true |}
  = Some [ MetricsDisplay.Tokens 12; MetricsDisplay.NumberText 0;
           MetricsDisplay.Divider;
           MetricsDisplay.Faith MetricsDisplay.yellow 0.7;
           MetricsDisplay.Rel MetricsDisplay.green 0.9;
           MetricsDisplay.Flagged ].
Proof. vm_compute. reflexivity. Qed.
